(** * Google-Drive-API: a shallow embedding of [drive_api_tools.py] and
    [download.py], and the properties of the credential lifecycle, the
    paginated listing and the skip-if-present download.

    The Python code talks to three collaborators: the local filesystem, the
    Google client libraries and the remote Drive service.  They are modelled
    as follows.

    - The filesystem is a finite map from paths to nodes (regular file with
      its content, or directory).
    - Everything the code does to the outside is threaded through a [world]:
      the filesystem, the log of network and authorization calls in the order
      they were issued, and the lines written by [print].
    - A Python function becomes a computation [M A]: a function from the
      world to a result ([Ok] value or [Raise]d exception) and the world it
      leaves behind.  Effects performed before an exception stay in the
      world, as they do in Python.
    - The [service] object is a record of the two remote operations the code
      uses; the google-auth entry points are a record [GoogleLibs]; the
      constants of the [config] module are a record [Config].

    Limits of the model.  Opening a path for writing fails only when the
    path is a directory: permissions and missing parent directories are not
    modelled.  What a media request does on its successive [next_chunk]
    calls is a finite script, so that the chunk loop of a download always
    ends; the pagination loop, whose length depends on the tokens the
    service hands out, takes a bound on its iterations instead.  Paths are
    joined as [posixpath] joins them.  Whether a credential is expired is
    read once, as a field: the clock is not modelled.  A path is a key of
    the map as it is spelled: two spellings of one file are two keys, so the
    statements about several destinations are about plain file names saved
    into a folder that exists.  [stdout] holds the lines the code itself
    prints, not what the client libraries write on their own. *)

From Stdlib Require Import String Ascii List Lia.
From stdpp Require Import base option gmap strings list.

(** ** Exceptions and results *)

Inductive exn : Type :=
| KeyError (key : string)
| IsADirectoryError (path : string)
| FileNotFoundError (path : string)
| HttpError (status : nat)
| RefreshError
| Exception (msg : string).

Inductive res (A : Type) : Type :=
| Ok (a : A)
| Raise (e : exn).
Arguments Ok {A} a.
Arguments Raise {A} e.

(** ** Data *)

(** A node of the local filesystem. *)
Inductive node : Type :=
| File (content : string)
| Directory.

(** [google.oauth2.credentials.Credentials], reduced to what
    [get_api_service] reads: [creds.expired], [creds.refresh_token] and
    [creds.valid] (which the library computes as
    [token is not None and not expired]). *)
Record Credentials : Type := {
  token : option string;
  refresh_token : option string;
  expired : bool
}.

Definition valid (c : Credentials) : bool :=
  match token c with
  | Some _ => negb (expired c)
  | None => false
  end.

(** Python truthiness of a value that is [None] or a [str]. *)
Definition truthy (o : option string) : bool :=
  match o with
  | Some (String _ _) => true
  | Some EmptyString => false
  | None => false
  end.

(** One call that leaves the process, as logged in the world. *)
Inductive event : Type :=
| ListExecute (q spaces fields : string) (pageToken : option string)
| NextChunk (fileId : string)
| Refresh (c : Credentials)
| RunLocalServer.

(** The response dict of [files().list(...).execute()]: both keys may be
    missing. *)
Record Response : Type := {
  files : option (list (gmap string string));
  nextPageToken : option string
}.

(** What [MediaIoBaseDownload.next_chunk] will do on its successive calls for
    one media request: write a chunk and report [done = False], write the
    last chunk and report [done = True], or raise. *)
Inductive media : Type :=
| Final (data : string)
| Chunk (data : string) (rest : media)
| Broken (e : exn).

(** The [service] object: the remote operations used by the code. *)
Record Service : Type := {
  files_list : string -> string -> string -> option string -> res Response;
  files_get_media : string -> media
}.

(** ** The world and the monad of computations *)

Record world : Type := {
  fs : gmap string node;
  events : list event;
  stdout : list string
}.

Definition M (A : Type) : Type := world -> res A * world.

Definition ret {A} (a : A) : M A := fun w => (Ok a, w).

Definition bind {A B} (m : M A) (k : A -> M B) : M B :=
  fun w =>
    match m w with
    | (Ok a, w') => k a w'
    | (Raise e, w') => (Raise e, w')
    end.

Definition raise {A} (e : exn) : M A := fun w => (Raise e, w).

(** The result of a call into a library, which leaves the world alone. *)
Definition lift {A} (r : res A) : M A := fun w => (r, w).

Notation "'do' x <- m ; k" := (bind m (fun x => k))
  (at level 10, x name, m at level 100, k at level 200).
Notation "m ;; k" := (bind m (fun _ => k))
  (at level 100, k at level 200, right associativity).

(** [print(line)] *)
Definition print (line : string) : M unit :=
  fun w => (Ok tt, {| fs := fs w; events := events w; stdout := stdout w ++ [line] |}).

(** Record a call that leaves the process. *)
Definition emit (e : event) : M unit :=
  fun w => (Ok tt, {| fs := fs w; events := events w ++ [e]; stdout := stdout w |}).

Definition set_fs (f : gmap string node) (w : world) : world :=
  {| fs := f; events := events w; stdout := stdout w |}.

(** ** The filesystem operations the code uses *)

(** [os.path.isfile(p)] *)
Definition isfile (f : gmap string node) (p : string) : bool :=
  match f !! p with
  | Some (File _) => true
  | _ => false
  end.

Definition os_path_isfile (p : string) : M bool :=
  fun w => (Ok (isfile (fs w) p), w).

(** [os.path.exists(p)] *)
Definition os_path_exists (p : string) : M bool :=
  fun w => (Ok (match fs w !! p with Some _ => true | None => false end), w).

(** [open(p, 'w')] and [open(p, 'wb')]: create the file or truncate it; a
    directory cannot be opened. *)
Definition open_w (p : string) : M unit :=
  fun w =>
    match fs w !! p with
    | Some Directory => (Raise (IsADirectoryError p), w)
    | _ => (Ok tt, set_fs (<[p := File EmptyString]> (fs w)) w)
    end.

(** [fh.write(data)] on the file opened at [p]: the data is appended.  The
    handle comes from [open_w], after which [p] is a regular file. *)
Definition write (p : string) (data : string) : M unit :=
  fun w =>
    match fs w !! p with
    | Some (File c) => (Ok tt, set_fs (<[p := File (c +:+ data)]> (fs w)) w)
    | _ => (Ok tt, w)
    end.

(** Reading a whole file. *)
Definition read (p : string) : M string :=
  fun w =>
    match fs w !! p with
    | Some (File c) => (Ok c, w)
    | Some Directory => (Raise (IsADirectoryError p), w)
    | None => (Raise (FileNotFoundError p), w)
    end.

(** [os.path.join(a, b)] of [posixpath]. *)
Definition startswith_sep (s : string) : bool :=
  match s with
  | String c _ => Ascii.eqb c "/"%char
  | EmptyString => false
  end.

Fixpoint endswith_sep (s : string) : bool :=
  match s with
  | EmptyString => false
  | String c EmptyString => Ascii.eqb c "/"%char
  | String _ r => endswith_sep r
  end.

Definition join (a b : string) : string :=
  if startswith_sep b then b
  else if negb (truthy (Some a)) || endswith_sep a then a +:+ b
  else a +:+ "/" +:+ b.

(** ** [drive_api_tools.download_metadata] *)

(** The loop [while not done: status, done = downloader.next_chunk()]. *)
Fixpoint next_chunks (fileId save_file : string) (request : media) : M unit :=
  match request with
  | Final data =>
      emit (NextChunk fileId) ;; write save_file data
  | Chunk data rest =>
      emit (NextChunk fileId) ;; write save_file data ;;
      next_chunks fileId save_file rest
  | Broken e =>
      emit (NextChunk fileId) ;; raise e
  end.

Definition download_metadata (service : Service) (fileId save_file : string)
  : M unit :=
  let request := files_get_media service fileId in
  open_w save_file ;;
  next_chunks fileId save_file request.

(** ** [download.Download] *)

Definition download_file (service : Service) (cloud_file_id save_file : string)
  : M unit :=
  print ("-- Downloading file with ID=" +:+ cloud_file_id +:+ " to " +:+ save_file) ;;
  do present <- os_path_isfile save_file;
  if negb present then
    download_metadata service cloud_file_id save_file ;;
    print "-- Download successful"
  else
    print "-- Download failed: File already exists".

(** [file[key]] on a dict. *)
Definition getitem (d : gmap string string) (key : string) : M string :=
  match d !! key with
  | Some v => ret v
  | None => raise (KeyError key)
  end.

(** The body of the [for file in files] loop. *)
Definition download_files_body (service : Service) (save_folder : string)
    (file : gmap string string) : M unit :=
  do basename <- getitem file "name";
  do fileId <- getitem file "id";
  let save_file := join save_folder basename in
  download_file service fileId save_file.

Fixpoint download_files (service : Service) (files : list (gmap string string))
    (save_folder : string) : M unit :=
  match files with
  | [] => ret tt
  | file :: rest =>
      download_files_body service save_folder file ;;
      download_files service rest save_folder
  end.

(** ** [drive_api_tools.query_metadata] *)

(** The [while True] loop.  A remote service may hand out continuation
    tokens for ever, so the loop takes a bound on the number of iterations:
    [None] means that the bound was reached before the loop ended. *)
Fixpoint query_metadata_loop (fuel : nat) (service : Service)
    (query fields : string) (files_acc : list (gmap string string))
    (page_token : option string) (w : world)
  : option (res (list (gmap string string)) * world) :=
  match fuel with
  | O => None
  | S fuel' =>
      let request :=
        emit (ListExecute query "drive"
                ("nextPageToken, files(" +:+ fields +:+ ")") page_token) ;;
        lift (files_list service query "drive"
                ("nextPageToken, files(" +:+ fields +:+ ")") page_token) in
      match request w with
      | (Raise e, w') => Some (Raise e, w')
      | (Ok response, w') =>
          let files_acc := files_acc ++ default [] (files response) in
          let page_token := nextPageToken response in
          match page_token with
          | None => Some (Ok files_acc, w')
          | Some _ =>
              query_metadata_loop fuel' service query fields files_acc
                page_token w'
          end
      end
  end.

Definition query_metadata (fuel : nat) (service : Service)
    (query fields : string) (w : world)
  : option (res (list (gmap string string)) * world) :=
  query_metadata_loop fuel service query fields [] None w.

(** ** [Download.listdir_cloud_folder] *)

Definition listdir_cloud_folder (fuel : nat) (service : Service)
    (cloud_folder_id : string) (w : world)
  : option (res (list (gmap string string)) * world) :=
  let query := "'" +:+ cloud_folder_id +:+ "' in parents" in
  query_metadata fuel service query "id, name" w.

(** ** [drive_api_tools.get_api_service] *)

(** The constants of the [config] module, which is not part of the sources
    at hand. *)
Record Config : Type := {
  TOKEN_FILE : string;
  CREDENTIALS_FILE : string;
  SCOPES : list string;
  API_NAME : string;
  API_VERSION : string
}.

Inductive Flow : Type :=
| InstalledAppFlow (client_config : string) (scopes : list string).

(** The entry points of google-auth, google-auth-oauthlib and
    googleapiclient that the function calls. *)
Record GoogleLibs : Type := {
  from_authorized_user_info : string -> list string -> res Credentials;
  refresh : Credentials -> res Credentials;
  from_client_config : string -> list string -> res Flow;
  run_local_server : Flow -> res Credentials;
  to_json : Credentials -> string;
  build : string -> string -> option Credentials -> res Service
}.

(** [Credentials.from_authorized_user_file(path, scopes)] *)
Definition from_authorized_user_file (libs : GoogleLibs) (path : string)
    (scopes : list string) : M Credentials :=
  do content <- read path;
  lift (from_authorized_user_info libs content scopes).

(** [InstalledAppFlow.from_client_secrets_file(path, scopes)] *)
Definition from_client_secrets_file (libs : GoogleLibs) (path : string)
    (scopes : list string) : M Flow :=
  do content <- read path;
  lift (from_client_config libs content scopes).

Definition get_api_service (config : Config) (libs : GoogleLibs) : M Service :=
  let creds : option Credentials := None in
  do present <- os_path_exists (TOKEN_FILE config);
  do creds <-
    (if present then
       do c <- from_authorized_user_file libs (TOKEN_FILE config) (SCOPES config);
       ret (Some c)
     else ret creds);
  do creds <-
    (if match creds with None => true | Some c => negb (valid c) end then
       do c <-
         (match creds with
          | Some c =>
              if expired c && truthy (refresh_token c) then
                emit (Refresh c) ;; lift (refresh libs c)
              else
                do flow <- from_client_secrets_file libs
                             (CREDENTIALS_FILE config) (SCOPES config);
                emit RunLocalServer ;; lift (run_local_server libs flow)
          | None =>
              do flow <- from_client_secrets_file libs
                           (CREDENTIALS_FILE config) (SCOPES config);
              emit RunLocalServer ;; lift (run_local_server libs flow)
          end);
       open_w (TOKEN_FILE config) ;;
       write (TOKEN_FILE config) (to_json libs c) ;;
       ret (Some c)
     else ret creds);
  lift (build libs (API_NAME config) (API_VERSION config) creds).

(** ** Observations used in the statements *)

(** The data that the successive [next_chunk] calls of a media request write
    before the request ends or fails. *)
Fixpoint media_written (m : media) : string :=
  match m with
  | Final data => data
  | Chunk data rest => data +:+ media_written rest
  | Broken _ => EmptyString
  end.

(** The exception with which a media request ends, if it does not complete. *)
Fixpoint media_failure (m : media) : option exn :=
  match m with
  | Final _ => None
  | Chunk _ rest => media_failure rest
  | Broken e => Some e
  end.

(** The number of [next_chunk] calls of a media request. *)
Fixpoint media_calls (m : media) : nat :=
  match m with
  | Final _ => 1
  | Chunk _ rest => S (media_calls rest)
  | Broken _ => 1
  end.

Definition media_result (m : media) : res unit :=
  match media_failure m with
  | Some e => Raise e
  | None => Ok tt
  end.

(** The path to which [download_files] saves an item of the listing. *)
Definition targets (save_folder : string) (file : gmap string string)
    (q : string) : Prop :=
  exists basename,
    file !! "name" = Some basename /\ join save_folder basename = q.

(** The items of one page: [response.get('files', [])]. *)
Definition page_items (response : Response) : list (gmap string string) :=
  default [] (files response).

(** [serves service query fields page_token pages]: asked for [query] and
    [fields] from [page_token] on, the service answers with the pages
    [pages], each page but the last carrying the continuation token that
    yields the next one, and the last carrying none. *)
Inductive serves (service : Service) (query fields : string)
  : option string -> list Response -> Prop :=
| serves_last page_token response :
    files_list service query "drive"
      ("nextPageToken, files(" +:+ fields +:+ ")") page_token = Ok response ->
    nextPageToken response = None ->
    serves service query fields page_token [response]
| serves_more page_token response t rest :
    files_list service query "drive"
      ("nextPageToken, files(" +:+ fields +:+ ")") page_token = Ok response ->
    nextPageToken response = Some t ->
    serves service query fields (Some t) rest ->
    serves service query fields page_token (response :: rest).

(** The requests that fetch the pages [pages], the first one with
    [page_token] and each later one with the token of the page before. *)
Fixpoint requests (query fields : string) (page_token : option string)
    (pages : list Response) : list event :=
  match pages with
  | [] => []
  | response :: rest =>
      ListExecute query "drive"
        ("nextPageToken, files(" +:+ fields +:+ ")") page_token
      :: requests query fields (nextPageToken response) rest
  end.

(** ** A stub service, for the examples

    Folder [F] holds [x.txt] and [y.txt], served on two pages of one item.
    The media of [a1] arrives in two chunks; the media request of [a2] fails
    with a 404 on its first chunk; every other media is empty. *)
Module Stub.

Definition item (id name : string) : gmap string string :=
  {[ "id" := id; "name" := name ]}.

Definition service : Service := {|
  files_list := fun q spaces fields pageToken =>
    match pageToken with
    | None =>
        Ok {| files := Some [item "a1" "x.txt"]; nextPageToken := Some "t1" |}
    | Some t =>
        if String.eqb t "t1" then
          Ok {| files := Some [item "a2" "y.txt"]; nextPageToken := None |}
        else Raise (HttpError 400)
    end;
  files_get_media := fun fileId =>
    if String.eqb fileId "a1" then Chunk "da" (Final "ta")
    else if String.eqb fileId "a2" then Broken (HttpError 404)
    else Final EmptyString
|}.

Definition empty_world : world :=
  {| fs := ∅; events := []; stdout := [] |}.

(** The constants of a [config] module. *)
Definition config : Config := {|
  TOKEN_FILE := "token.json";
  CREDENTIALS_FILE := "credentials.json";
  SCOPES := ["https://www.googleapis.com/auth/drive"];
  API_NAME := "drive";
  API_VERSION := "v3"
|}.

Definition fresh_credentials : Credentials :=
  {| token := Some "new"; refresh_token := Some "r"; expired := false |}.

Definition expired_credentials : Credentials :=
  {| token := Some "old"; refresh_token := Some "r"; expired := true |}.

(** Client libraries that write a credential as the word [fresh] or
    [expired], refresh any credential to the fresh one, and authorize
    interactively to the fresh one. *)
Definition libs : GoogleLibs := {|
  from_authorized_user_info := fun content scopes =>
    if String.eqb content "fresh" then Ok fresh_credentials
    else if String.eqb content "expired" then Ok expired_credentials
    else Raise (Exception "malformed token file");
  refresh := fun c => Ok fresh_credentials;
  from_client_config := fun content scopes => Ok (InstalledAppFlow content scopes);
  run_local_server := fun flow => Ok fresh_credentials;
  to_json := fun c => if expired c then "expired" else "fresh";
  build := fun name version creds => Ok service
|}.

(** A world with the client secrets and the given content of the token
    file. *)
Definition world_with_token (content : string) : world :=
  {| fs := {[ "credentials.json" := File "secrets";
              "token.json" := File content ]};
     events := []; stdout := [] |}.

(** A world with the client secrets and no token file. *)
Definition world_without_token : world :=
  {| fs := {[ "credentials.json" := File "secrets" ]};
     events := []; stdout := [] |}.

(** The two pages of folder [F]. *)
Definition pages : list Response :=
  [ {| files := Some [item "a1" "x.txt"]; nextPageToken := Some "t1" |};
    {| files := Some [item "a2" "y.txt"]; nextPageToken := None |} ].

(** The world after [a1] has been downloaded to [dest/x.txt]. *)
Definition world_after_x : world :=
  {| fs := {[ "dest/x.txt" := File "data" ]};
     events := [NextChunk "a1"; NextChunk "a1"];
     stdout := ["-- Downloading file with ID=a1 to dest/x.txt";
                "-- Download successful"] |}.

(** A world in which [dest/x.txt] is already there. *)
Definition world_with_x : world :=
  {| fs := {[ "dest/x.txt" := File "old" ]}; events := []; stdout := [] |}.

End Stub.

(** The token with which the request after the pages [pages] is sent. *)
Fixpoint token_after (page_token : option string) (pages : list Response)
  : option string :=
  match pages with
  | [] => page_token
  | response :: rest => token_after (nextPageToken response) rest
  end.

(** [fails_after service query fields page_token pages e]: from [page_token]
    on, the service answers with the pages [pages], each carrying the token
    of the next request, and the request after them raises [e]. *)
Inductive fails_after (service : Service) (query fields : string)
  : option string -> list Response -> exn -> Prop :=
| fails_now page_token e :
    files_list service query "drive"
      ("nextPageToken, files(" +:+ fields +:+ ")") page_token = Raise e ->
    fails_after service query fields page_token [] e
| fails_later page_token response t rest e :
    files_list service query "drive"
      ("nextPageToken, files(" +:+ fields +:+ ")") page_token = Ok response ->
    nextPageToken response = Some t ->
    fails_after service query fields (Some t) rest e ->
    fails_after service query fields page_token (response :: rest) e.

(** An item of a listing that [download_files] can process: it has a name
    and an id, and its destination is a regular file of [f]. *)
Definition present_in (f : gmap string node) (save_folder : string)
    (file : gmap string string) : Prop :=
  exists basename fileId,
    file !! "name" = Some basename /\ file !! "id" = Some fileId /\
    isfile f (join save_folder basename) = true.

(** A plain file name: not empty, not [.] or [..], and without [/]. *)
Fixpoint has_sep (s : string) : bool :=
  match s with
  | EmptyString => false
  | String c r => Ascii.eqb c "/"%char || has_sep r
  end.

Definition plain_name (s : string) : bool :=
  match s with
  | EmptyString => false
  | String _ _ =>
      negb (has_sep s) && negb (String.eqb s ".") && negb (String.eqb s "..")
  end.

(** The save folder is there: it is the empty path, which [join] leaves out
    and which stands for the current directory, or a directory of [f]. *)
Definition folder_exists (f : gmap string node) (save_folder : string) : Prop :=
  save_folder = EmptyString \/ f !! save_folder = Some Directory.

(** An item that a download can fetch in full: it has a plain name and an
    id, nothing is at its destination in [f], and its media request
    completes. *)
Definition fetchable (service : Service) (f : gmap string node)
    (save_folder : string) (file : gmap string string) : Prop :=
  exists basename fileId,
    file !! "name" = Some basename /\ file !! "id" = Some fileId /\
    plain_name basename = true /\
    f !! join save_folder basename = None /\
    media_failure (files_get_media service fileId) = None.

(** An item whose destination in [f] holds the whole data of its media. *)
Definition fetched (service : Service) (f : gmap string node)
    (save_folder : string) (file : gmap string string) : Prop :=
  exists basename fileId,
    file !! "name" = Some basename /\ file !! "id" = Some fileId /\
    f !! join save_folder basename =
      Some (File (media_written (files_get_media service fileId))).

(** ** Further stubs, for the examples *)
Module Scenario.

(** A service whose first page carries a token and whose second request
    fails with a 500; no media. *)
Definition flaky_service : Service := {|
  files_list := fun q spaces fields pageToken =>
    match pageToken with
    | None =>
        Ok {| files := Some [Stub.item "a1" "x.txt"]; nextPageToken := Some "t1" |}
    | Some _ => Raise (HttpError 500)
    end;
  files_get_media := fun fileId => Final EmptyString
|}.

Definition flaky_first_page : Response :=
  {| files := Some [Stub.item "a1" "x.txt"]; nextPageToken := Some "t1" |}.

(** A service that hands out the same token with every page. *)
Definition endless_service : Service := {|
  files_list := fun q spaces fields pageToken =>
    Ok {| files := Some [Stub.item "a1" "x.txt"]; nextPageToken := Some "again" |};
  files_get_media := fun fileId => Final EmptyString
|}.

(** A world with the folder [dest], empty. *)
Definition world_with_folder : world :=
  {| fs := {[ "dest" := Directory ]}; events := []; stdout := [] |}.

(** That world after [a1] has been downloaded to [dest/x.txt]. *)
Definition world_with_folder_after_x : world :=
  {| fs := {[ "dest" := Directory; "dest/x.txt" := File "data" ]};
     events := [NextChunk "a1"; NextChunk "a1"];
     stdout := ["-- Downloading file with ID=a1 to dest/x.txt";
                "-- Download successful"] |}.

(** A world with the folder [/d], empty. *)
Definition world_with_folder_d : world :=
  {| fs := {[ "/d" := Directory ]}; events := []; stdout := [] |}.

(** A world in which [dest/x.txt] is a directory. *)
Definition world_with_directory : world :=
  {| fs := {[ "dest/x.txt" := Directory ]}; events := []; stdout := [] |}.

(** A world in which the token path is a directory. *)
Definition world_with_token_directory : world :=
  {| fs := {[ "token.json" := Directory ]}; events := []; stdout := [] |}.

(** A credential without a token, not expired. *)
Definition blank_credentials : Credentials :=
  {| token := None; refresh_token := Some "r"; expired := false |}.

(** Client libraries that read every token file as the blank credential. *)
Definition blank_libs : GoogleLibs := {|
  from_authorized_user_info := fun content scopes => Ok blank_credentials;
  refresh := refresh Stub.libs;
  from_client_config := from_client_config Stub.libs;
  run_local_server := run_local_server Stub.libs;
  to_json := to_json Stub.libs;
  build := build Stub.libs
|}.

End Scenario.

(** ** Strings *)

Lemma string_app_nil_r (s : string) : s +:+ EmptyString = s.
Proof.
  induction s as [|a s IH]; [reflexivity|].
  change (String a (s +:+ EmptyString) = String a s). by rewrite IH.
Qed.

Lemma string_app_assoc (s1 s2 s3 : string) :
  (s1 +:+ s2) +:+ s3 = s1 +:+ (s2 +:+ s3).
Proof.
  induction s1 as [|a s1 IH]; [reflexivity|].
  change (String a ((s1 +:+ s2) +:+ s3) = String a (s1 +:+ (s2 +:+ s3))).
  by rewrite IH.
Qed.

(** ** Running computations *)

Ltac run :=
  unfold bind, ret, raise, lift, print, emit, os_path_isfile,
    os_path_exists, open_w, write, read, set_fs; cbn [fs events stdout negb].

(** Rewrite with the facts at hand and reduce what they decide. *)
Ltac decide_with rw :=
  repeat first [ progress rw
               | progress cbn beta iota zeta delta [fs events stdout negb andb] ].

Lemma bind_ok {A B} (m : M A) (k : A -> M B) w a w' :
  m w = (Ok a, w') -> bind m k w = k a w'.
Proof. intros H. unfold bind. by rewrite H. Qed.

Lemma bind_raise {A B} (m : M A) (k : A -> M B) w e w' :
  m w = (Raise e, w') -> bind m k w = (Raise e, w').
Proof. intros H. unfold bind. by rewrite H. Qed.

(** ** The chunk loop *)

Section ChunkLoop.
Variables (fileId save_file : string).

Lemma next_chunks_run (m : media) :
  forall w c,
    fs w !! save_file = Some (File c) ->
    next_chunks fileId save_file m w =
      (media_result m,
       {| fs := <[save_file := File (c +:+ media_written m)]> (fs w);
          events := events w ++ replicate (media_calls m) (NextChunk fileId);
          stdout := stdout w |}).
Proof.
  induction m as [data|data rest IH|e]; intros w c Hc.
  - cbn [next_chunks]. run. rewrite Hc. reflexivity.
  - cbn [next_chunks]. unfold bind at 1. unfold emit at 1.
    unfold bind at 1. unfold write at 1. cbn [fs]. rewrite Hc.
    erewrite IH by (unfold set_fs; cbn [fs]; apply lookup_insert_eq).
    unfold set_fs, media_result. cbn [fs events stdout media_failure
      media_written media_calls replicate].
    rewrite insert_insert_eq, string_app_assoc, <- app_assoc.
    reflexivity.
  - cbn [next_chunks]. run. unfold media_result.
    cbn [media_failure media_written media_calls replicate].
    rewrite string_app_nil_r, (insert_id _ _ _ Hc). reflexivity.
Qed.
End ChunkLoop.

(** ** The three ways [download_file] can go *)

Section DownloadFile.
Variables (service : Service) (cloud_file_id save_file : string).

Local Abbreviation banner :=
  ("-- Downloading file with ID=" +:+ cloud_file_id +:+ " to " +:+ save_file).

Lemma download_file_present w :
  isfile (fs w) save_file = true ->
  download_file service cloud_file_id save_file w =
    (Ok tt,
     {| fs := fs w; events := events w;
        stdout := (stdout w ++ [banner]) ++
                  ["-- Download failed: File already exists"] |}).
Proof.
  intros H. unfold download_file. run. rewrite H. reflexivity.
Qed.

Lemma download_file_directory w :
  fs w !! save_file = Some Directory ->
  download_file service cloud_file_id save_file w =
    (Raise (IsADirectoryError save_file),
     {| fs := fs w; events := events w; stdout := stdout w ++ [banner] |}).
Proof.
  intros H. unfold download_file, download_metadata. run.
  unfold isfile. rewrite H. cbn [negb fs]. rewrite H. reflexivity.
Qed.

Lemma download_file_absent w :
  fs w !! save_file = None ->
  download_file service cloud_file_id save_file w =
    (media_result (files_get_media service cloud_file_id),
     {| fs := <[save_file :=
                  File (media_written (files_get_media service cloud_file_id))]>
                (fs w);
        events := events w ++
                  replicate (media_calls (files_get_media service cloud_file_id))
                    (NextChunk cloud_file_id);
        stdout := (stdout w ++ [banner]) ++
                  match media_failure (files_get_media service cloud_file_id) with
                  | Some _ => []
                  | None => ["-- Download successful"]
                  end |}).
Proof.
  intros H. unfold download_file, download_metadata.
  unfold bind at 1. unfold print at 1.
  unfold bind at 1. unfold os_path_isfile at 1. cbn [fs].
  unfold isfile. rewrite H. cbn [negb].
  unfold bind at 1. unfold bind at 1. unfold open_w at 1. cbn [fs].
  rewrite H.
  erewrite next_chunks_run by (unfold set_fs; cbn [fs]; apply lookup_insert_eq).
  unfold set_fs, media_result. cbn [fs events stdout].
  rewrite insert_insert_eq.
  destruct (media_failure (files_get_media service cloud_file_id)).
  - rewrite app_nil_r. reflexivity.
  - unfold print. reflexivity.
Qed.
End DownloadFile.

(** ** What a download leaves untouched *)

Section Frame.
Variables (service : Service) (save_folder : string).

(** A download to [save_file] changes no other path, and changes no path
    at which a regular file already is. *)
Lemma download_file_frame cloud_file_id save_file w r w' q :
  download_file service cloud_file_id save_file w = (r, w') ->
  q <> save_file \/ isfile (fs w) q = true ->
  fs w' !! q = fs w !! q.
Proof.
  intros Hrun Hq. destruct (fs w !! save_file) as [[c|]|] eqn:Hp.
  - rewrite download_file_present in Hrun
      by (unfold isfile; by rewrite Hp).
    by inversion Hrun.
  - rewrite download_file_directory in Hrun by done. by inversion Hrun.
  - rewrite download_file_absent in Hrun by done.
    inversion Hrun; subst; cbn [fs].
    apply lookup_insert_ne. intros <-.
    destruct Hq as [?|Hq]; [done|].
    unfold isfile in Hq. by rewrite Hp in Hq.
Qed.

Lemma download_files_body_frame file w r w' q :
  download_files_body service save_folder file w = (r, w') ->
  ~ targets save_folder file q \/ isfile (fs w) q = true ->
  fs w' !! q = fs w !! q.
Proof.
  unfold download_files_body, getitem. intros Hrun Hq.
  destruct (file !! "name") as [basename|] eqn:Hname;
    [|by inversion Hrun].
  destruct (file !! "id") as [fileId|] eqn:Hid;
    [|by inversion Hrun].
  apply (download_file_frame fileId (join save_folder basename) w r w' q Hrun).
  destruct Hq as [Hq|Hq]; [left|by right].
  intros ->. apply Hq. by exists basename.
Qed.

Lemma download_files_keeps_files files :
  forall w r w' q,
    download_files service files save_folder w = (r, w') ->
    isfile (fs w) q = true ->
    fs w' !! q = fs w !! q.
Proof.
  induction files as [|file rest IH]; intros w r w' q Hrun Hq.
  - by inversion Hrun.
  - cbn [download_files] in Hrun. unfold bind in Hrun.
    destruct (download_files_body service save_folder file w)
      as [[[]|e] w1] eqn:Hbody.
    + assert (Hq1 : fs w1 !! q = fs w !! q)
        by (eapply download_files_body_frame; eauto).
      rewrite <- Hq1. eapply IH; [exact Hrun|].
      unfold isfile in *. by rewrite Hq1.
    + inversion Hrun; subst.
      eapply download_files_body_frame; eauto.
Qed.

Lemma download_files_untargeted files :
  forall w r w' q,
    download_files service files save_folder w = (r, w') ->
    Forall (fun file => ~ targets save_folder file q) files ->
    fs w' !! q = fs w !! q.
Proof.
  induction files as [|file rest IH]; intros w r w' q Hrun Hq.
  - by inversion Hrun.
  - inversion Hq as [|? ? Hfile Hrest]; subst.
    cbn [download_files] in Hrun. unfold bind in Hrun.
    destruct (download_files_body service save_folder file w)
      as [[[]|e] w1] eqn:Hbody.
    + rewrite (IH _ _ _ _ Hrun Hrest).
      eapply download_files_body_frame; eauto.
    + inversion Hrun; subst.
      eapply download_files_body_frame; eauto.
Qed.

(** The loop over a concatenation runs the first part and, when that part
    raises nothing, the second. *)
Lemma download_files_app pre post :
  forall w,
    download_files service (pre ++ post) save_folder w =
      match download_files service pre save_folder w with
      | (Ok _, w1) => download_files service post save_folder w1
      | (Raise e, w1) => (Raise e, w1)
      end.
Proof.
  induction pre as [|file pre IH]; intros w; [reflexivity|].
  cbn [app download_files]. unfold bind.
  destruct (download_files_body service save_folder file w) as [[[]|e] w1];
    [apply IH|reflexivity].
Qed.
End Frame.

(** ** Skip if present *)

(** C1: whenever a regular file already exists at the destination path,
    [download_file] returns normally through its skip branch (it prints the
    "File already exists" line), the log of network calls is unchanged, so
    that [download_metadata] and its [next_chunk] calls are never issued,
    whatever the service would have answered, and the filesystem is
    unchanged. *)
Theorem download_file_skips_existing_file
    (service : Service) (cloud_file_id save_file : string) (w : world) :
  isfile (fs w) save_file = true ->
  exists w',
    download_file service cloud_file_id save_file w = (Ok tt, w') /\
    events w' = events w /\
    fs w' = fs w /\
    stdout w' =
      stdout w ++
      ["-- Downloading file with ID=" +:+ cloud_file_id +:+ " to " +:+ save_file;
       "-- Download failed: File already exists"].
Proof.
  intros Hfile. eexists. split.
  - by apply download_file_present.
  - cbn [fs events stdout]. by rewrite <- app_assoc.
Qed.

Lemma download_file_skips_existing_file_witness :
  exists w',
    download_file Stub.service "a2" "dest/x.txt" Stub.world_with_x = (Ok tt, w') /\
    events w' = events Stub.world_with_x /\
    fs w' = fs Stub.world_with_x /\
    stdout w' =
      stdout Stub.world_with_x ++
      ["-- Downloading file with ID=" +:+ "a2" +:+ " to " +:+ "dest/x.txt";
       "-- Download failed: File already exists"].
Proof.
  apply (download_file_skips_existing_file Stub.service "a2" "dest/x.txt"
           Stub.world_with_x).
  vm_compute. reflexivity.
Defined.

(** ** A failing item *)

(** C2, as the claim states it, fails: in a listing of three items whose
    second download fails, [download_files] raises the failure of the second
    item; the third item is never processed (no line printed, no network
    call, no file). *)
Lemma download_files_aborts_at_failing_item :
  download_files Stub.service
    [Stub.item "a1" "x.txt"; Stub.item "a2" "y.txt"; Stub.item "a3" "z.txt"]
    "dest" Stub.empty_world =
  (Raise (HttpError 404),
   {| fs := {[ "dest/x.txt" := File "data"; "dest/y.txt" := File EmptyString ]};
      events := [NextChunk "a1"; NextChunk "a1"; NextChunk "a2"];
      stdout := ["-- Downloading file with ID=a1 to dest/x.txt";
                 "-- Download successful";
                 "-- Downloading file with ID=a2 to dest/y.txt"] |}).
Proof. vm_compute. reflexivity. Qed.

(** C2, amended: [download_files] processes the items in listing order and
    returns no outcome values.  Once the items before [file] have been
    processed without an exception, an exception raised while processing
    [file] is raised out of [download_files] with the world as that item
    left it, and no later item is processed; when [file] raises nothing the
    loop goes on with the items after it. *)
Theorem download_files_stops_at_first_failure
    (service : Service) (save_folder : string)
    (pre post : list (gmap string string)) (file : gmap string string)
    (w w1 : world) :
  download_files service pre save_folder w = (Ok tt, w1) ->
  download_files service (pre ++ file :: post) save_folder w =
    match download_files_body service save_folder file w1 with
    | (Ok _, w2) => download_files service post save_folder w2
    | (Raise e, w2) => (Raise e, w2)
    end.
Proof.
  intros Hpre. rewrite download_files_app, Hpre. reflexivity.
Qed.

Lemma download_files_stops_at_first_failure_witness :
  download_files Stub.service
    ([Stub.item "a1" "x.txt"] ++ Stub.item "a2" "y.txt" :: [Stub.item "a3" "z.txt"])
    "dest" Stub.empty_world =
  match
    download_files_body Stub.service "dest" (Stub.item "a2" "y.txt")
      {| fs := {[ "dest/x.txt" := File "data" ]};
         events := [NextChunk "a1"; NextChunk "a1"];
         stdout := ["-- Downloading file with ID=a1 to dest/x.txt";
                    "-- Download successful"] |}
  with
  | (Ok _, w2) => download_files Stub.service [Stub.item "a3" "z.txt"] "dest" w2
  | (Raise e, w2) => (Raise e, w2)
  end.
Proof.
  apply (download_files_stops_at_first_failure Stub.service "dest"
           [Stub.item "a1" "x.txt"] [Stub.item "a3" "z.txt"]
           (Stub.item "a2" "y.txt") Stub.empty_world).
  vm_compute. reflexivity.
Defined.

(** ** A failing download *)




(** ** Two items with the same name *)

(** Plain names are relative, and [join] keeps relative names apart. *)
Lemma plain_name_relative (s : string) :
  plain_name s = true -> startswith_sep s = false.
Proof.
  destruct s as [|c r]; [done|]. unfold plain_name. cbn [has_sep startswith_sep].
  destruct (Ascii.eqb c "/"); [done|reflexivity].
Qed.

Lemma join_relative_inj (a b1 b2 : string) :
  startswith_sep b1 = false -> startswith_sep b2 = false ->
  join a b1 = join a b2 -> b1 = b2.
Proof.
  unfold join. intros -> ->.
  destruct (negb (truthy (Some a)) || endswith_sep a); intros Heq.
  - by apply (inj (String.app a)) in Heq.
  - apply (inj (String.app a)) in Heq. by apply (inj (String.app "/")) in Heq.
Qed.

(** An item with a plain name other than [name] is saved elsewhere than
    the plain name [name]. *)
Lemma plain_names_apart (save_folder : string) (file : gmap string string)
    (name : string) :
  plain_name name = true ->
  (forall n, file !! "name" = Some n -> plain_name n = true /\ n <> name) ->
  ~ targets save_folder file (join save_folder name).
Proof.
  intros Hname Hfile (n & Hn & Heq).
  destruct (Hfile n Hn) as [Hplain Hne]. apply Hne.
  apply (join_relative_inj save_folder); auto using plain_name_relative.
Qed.

(** With destinations compared as they are spelled: when no item before
    [a] is saved to the destination of [a] and nothing is there, the first
    item to write the destination is [a], and a later item of the same name
    finds the file of [a]. *)
Lemma download_files_first_writer_wins
    (service : Service) (save_folder : string)
    (pre mid post : list (gmap string string)) (a b : gmap string string)
    (name ida idb : string) (w : world) :
  a !! "name" = Some name -> a !! "id" = Some ida ->
  b !! "name" = Some name -> b !! "id" = Some idb ->
  Forall (fun file => ~ targets save_folder file (join save_folder name)) pre ->
  fs w !! join save_folder name = None ->
  (forall r w',
     download_files service (pre ++ a :: mid ++ b :: post) save_folder w = (r, w') ->
     fs w' !! join save_folder name = None \/
     fs w' !! join save_folder name =
       Some (File (media_written (files_get_media service ida)))) /\
  (forall w3,
     download_files service (pre ++ a :: mid) save_folder w = (Ok tt, w3) ->
     (exists w1,
        download_files service pre save_folder w = (Ok tt, w1) /\
        download_files_body service save_folder a w1 =
          (Ok tt,
           {| fs := <[join save_folder name :=
                        File (media_written (files_get_media service ida))]>
                      (fs w1);
              events := events w1 ++
                        replicate (media_calls (files_get_media service ida))
                          (NextChunk ida);
              stdout := (stdout w1 ++
                         ["-- Downloading file with ID=" +:+ ida +:+ " to " +:+
                          join save_folder name]) ++
                        ["-- Download successful"] |})) /\
     fs w3 !! join save_folder name =
       Some (File (media_written (files_get_media service ida))) /\
     download_files_body service save_folder b w3 =
       (Ok tt,
        {| fs := fs w3; events := events w3;
           stdout := (stdout w3 ++
                      ["-- Downloading file with ID=" +:+ idb +:+ " to " +:+
                       join save_folder name]) ++
                     ["-- Download failed: File already exists"] |})).
Proof.
  intros Haname Haid Hbname Hbid Hpre Habsent.
  set (p := join save_folder name) in *.
  assert (Ha : forall w1,
             download_files_body service save_folder a w1 =
             download_file service ida p w1).
  { intros w1. unfold download_files_body, getitem.
    rewrite Haname, Haid. reflexivity. }
  assert (Hp1 : forall r w1,
             download_files service pre save_folder w = (r, w1) ->
             fs w1 !! p = None).
  { intros r w1 Hw1. rewrite <- Habsent.
    eapply download_files_untargeted; eauto. }
  split.
  - intros r w' Hall. rewrite download_files_app in Hall.
    destruct (download_files service pre save_folder w) as [[[]|e] w1] eqn:Hw1.
    + cbn [download_files] in Hall. unfold bind in Hall.
      rewrite Ha, (download_file_absent _ _ _ _ (Hp1 _ _ eq_refl)) in Hall.
      right. destruct (media_result (files_get_media service ida)).
      * erewrite download_files_keeps_files; [|exact Hall|];
          cbn [fs]; unfold isfile; by rewrite lookup_insert_eq.
      * injection Hall as _ <-. cbn [fs]. apply lookup_insert_eq.
    + left. injection Hall as _ <-. by eapply Hp1.
  - intros w3 Hrun. rewrite download_files_app in Hrun.
    destruct (download_files service pre save_folder w) as [[[]|e] w1] eqn:Hw1;
      [|discriminate].
    cbn [download_files] in Hrun. unfold bind in Hrun.
    rewrite Ha, (download_file_absent _ _ _ _ (Hp1 _ _ eq_refl)) in Hrun.
    unfold media_result in Hrun.
    destruct (media_failure (files_get_media service ida)) eqn:Hf;
      [discriminate|].
    assert (Hp3 : fs w3 !! p =
                  Some (File (media_written (files_get_media service ida)))).
    { erewrite download_files_keeps_files; [|exact Hrun|];
        cbn [fs]; unfold isfile; by rewrite lookup_insert_eq. }
    split; [|split; [exact Hp3|]].
    + exists w1. split; [reflexivity|].
      rewrite Ha, (download_file_absent _ _ _ _ (Hp1 _ _ eq_refl)).
      unfold media_result. rewrite Hf. reflexivity.
    + unfold download_files_body, getitem. rewrite Hbname, Hbid.
      apply download_file_present. unfold isfile. by rewrite Hp3.
Qed.

(** C10, as the claim states it, fails: an item earlier in the listing
    can be saved to the same path.  In the folder [/d], which is empty, the
    listing holds an item named [/d/x.txt] and then two items named
    [x.txt]; the first item creates [/d/x.txt], and both items named
    [x.txt] are skipped: the first of them is never downloaded. *)
Lemma download_files_same_name_first_not_fetched :
  fs Scenario.world_with_folder_d !! join "/d" "x.txt" = None /\
  download_files Stub.service
    [Stub.item "a3" "/d/x.txt"; Stub.item "a1" "x.txt"; Stub.item "a2" "x.txt"]
    "/d" Scenario.world_with_folder_d =
  (Ok tt,
   {| fs := {[ "/d" := Directory; "/d/x.txt" := File EmptyString ]};
      events := [NextChunk "a3"];
      stdout := ["-- Downloading file with ID=a3 to /d/x.txt";
                 "-- Download successful";
                 "-- Downloading file with ID=a1 to /d/x.txt";
                 "-- Download failed: File already exists";
                 "-- Downloading file with ID=a2 to /d/x.txt";
                 "-- Download failed: File already exists"] |}).
Proof. split; vm_compute; reflexivity. Qed.

(** C10, amended: let a listing hold two items [a] and [b] of the same
    plain name, [a] first, let the save folder exist with nothing at their
    common destination, let the items before [a] have plain names other
    than that name, and the items between [a] and [b] plain names.  However
    the loop ends, the only data ever written to
    the destination is the media of [a], so the media of [b] is never
    fetched to it.  And when the loop gets through the items up to [b]
    without an exception, then [a] was downloaded to the destination, the
    file [b] finds there is the one [a] created, and [b] is skipped without
    any network call and without touching the filesystem. *)
Theorem download_files_same_plain_name_fetches_first_only
    (service : Service) (save_folder : string)
    (pre mid post : list (gmap string string)) (a b : gmap string string)
    (name ida idb : string) (w : world) :
  a !! "name" = Some name -> a !! "id" = Some ida ->
  b !! "name" = Some name -> b !! "id" = Some idb ->
  plain_name name = true ->
  Forall (fun file =>
            forall n, file !! "name" = Some n -> plain_name n = true /\ n <> name)
    pre ->
  Forall (fun file =>
            forall n, file !! "name" = Some n -> plain_name n = true)
    mid ->
  folder_exists (fs w) save_folder ->
  fs w !! join save_folder name = None ->
  (forall r w',
     download_files service (pre ++ a :: mid ++ b :: post) save_folder w = (r, w') ->
     fs w' !! join save_folder name = None \/
     fs w' !! join save_folder name =
       Some (File (media_written (files_get_media service ida)))) /\
  (forall w3,
     download_files service (pre ++ a :: mid) save_folder w = (Ok tt, w3) ->
     (exists w1,
        download_files service pre save_folder w = (Ok tt, w1) /\
        download_files_body service save_folder a w1 =
          (Ok tt,
           {| fs := <[join save_folder name :=
                        File (media_written (files_get_media service ida))]>
                      (fs w1);
              events := events w1 ++
                        replicate (media_calls (files_get_media service ida))
                          (NextChunk ida);
              stdout := (stdout w1 ++
                         ["-- Downloading file with ID=" +:+ ida +:+ " to " +:+
                          join save_folder name]) ++
                        ["-- Download successful"] |})) /\
     fs w3 !! join save_folder name =
       Some (File (media_written (files_get_media service ida))) /\
     download_files_body service save_folder b w3 =
       (Ok tt,
        {| fs := fs w3; events := events w3;
           stdout := (stdout w3 ++
                      ["-- Downloading file with ID=" +:+ idb +:+ " to " +:+
                       join save_folder name]) ++
                     ["-- Download failed: File already exists"] |})).
Proof.
  intros Haname Haid Hbname Hbid Hplain Hpre Hmid Hfolder Habsent.
  apply download_files_first_writer_wins; try done.
  eapply Forall_impl; [exact Hpre|].
  intros file Hfile. by apply plain_names_apart.
Qed.

Lemma download_files_same_plain_name_fetches_first_only_witness :
  fs Scenario.world_with_folder_after_x !! "dest/x.txt" = Some (File "data") /\
  download_files_body Stub.service "dest" (Stub.item "a2" "x.txt")
    Scenario.world_with_folder_after_x =
    (Ok tt,
     {| fs := fs Scenario.world_with_folder_after_x;
        events := events Scenario.world_with_folder_after_x;
        stdout := (stdout Scenario.world_with_folder_after_x ++
                   ["-- Downloading file with ID=a2 to dest/x.txt"]) ++
                  ["-- Download failed: File already exists"] |}).
Proof.
  destruct (download_files_same_plain_name_fetches_first_only Stub.service
              "dest" [] [] [] (Stub.item "a1" "x.txt") (Stub.item "a2" "x.txt")
              "x.txt" "a1" "a2" Scenario.world_with_folder) as (_ & Hreach).
  - vm_compute. reflexivity.
  - vm_compute. reflexivity.
  - vm_compute. reflexivity.
  - vm_compute. reflexivity.
  - vm_compute. reflexivity.
  - constructor.
  - constructor.
  - right. vm_compute. reflexivity.
  - vm_compute. reflexivity.
  - destruct (Hreach Scenario.world_with_folder_after_x) as (_ & Hfile & Hskip).
    + vm_compute. reflexivity.
    + split; [exact Hfile|exact Hskip].
Defined.

(** ** Pagination *)

Section Pagination.
Variables (service : Service) (query fields : string).

Local Abbreviation list_fields := ("nextPageToken, files(" +:+ fields +:+ ")").

(** With enough iterations allowed, the loop follows the served pages to
    the last one and returns the items of all of them, in order. *)
Lemma query_metadata_loop_serves page_token pages :
  serves service query fields page_token pages ->
  forall fuel files_acc w,
    length pages <= fuel ->
    query_metadata_loop fuel service query fields files_acc page_token w =
      Some (Ok (files_acc ++ concat (map page_items pages)),
            {| fs := fs w;
               events := events w ++ requests query fields page_token pages;
               stdout := stdout w |}).
Proof.
  induction 1 as [page_token response Hresp Hlast
                 |page_token response t rest Hresp Hnext Hrest IH];
    intros fuel files_acc w Hfuel;
    (destruct fuel as [|fuel]; [cbn in Hfuel; lia|]);
    cbn [query_metadata_loop]; run; rewrite Hresp.
  - rewrite Hlast. cbn [map concat requests].
    rewrite app_nil_r. reflexivity.
  - cbn [map concat requests]. rewrite Hnext.
    rewrite IH by (cbn in Hfuel; lia).
    cbn [fs events stdout]. unfold page_items.
    rewrite <- !app_assoc. reflexivity.
Qed.

(** With fewer iterations than pages, the loop has not ended. *)
Lemma query_metadata_loop_short page_token pages :
  serves service query fields page_token pages ->
  forall fuel files_acc w,
    fuel < length pages ->
    query_metadata_loop fuel service query fields files_acc page_token w = None.
Proof.
  induction 1 as [page_token response Hresp Hlast
                 |page_token response t rest Hresp Hnext Hrest IH];
    intros fuel files_acc w Hfuel;
    (destruct fuel as [|fuel]; [reflexivity|]);
    cbn in Hfuel; [lia|].
  cbn [query_metadata_loop]. run. rewrite Hresp, Hnext.
  apply IH. lia.
Qed.

(** Among the served pages, only the last one carries no token. *)
Lemma serves_last_token page_token pages :
  serves service query fields page_token pages ->
  forall i response,
    pages !! i = Some response ->
    (nextPageToken response = None <-> S i = length pages).
Proof.
  induction 1 as [page_token response Hresp Hlast
                 |page_token response t rest Hresp Hnext Hrest IH];
    intros i r Hi.
  - destruct i as [|i]; [|by destruct i].
    injection Hi as <-. by split.
  - destruct i as [|i].
    + injection Hi as <-. rewrite Hnext. cbn [length].
      split; [discriminate|]. intros Hlen.
      inversion Hrest; subst; cbn in Hlen; lia.
    + cbn in Hi. rewrite (IH i r Hi). cbn [length]. split; lia.
Qed.

Lemma requests_length page_token pages :
  length (requests query fields page_token pages) = length pages.
Proof.
  revert page_token. induction pages as [|response rest IH]; intros page_token;
    [reflexivity|]. cbn. by rewrite IH.
Qed.

(** Whatever the service answers, the loop only issues list requests for
    [query] and [fields], and touches neither the filesystem nor the
    output. *)
Lemma query_metadata_loop_requests fuel :
  forall files_acc page_token w r w',
    query_metadata_loop fuel service query fields files_acc page_token w =
      Some (r, w') ->
    fs w' = fs w /\ stdout w' = stdout w /\
    exists page_tokens,
      events w' =
        events w ++ map (ListExecute query "drive" list_fields) page_tokens.
Proof.
  induction fuel as [|fuel IH]; intros files_acc page_token w r w' Hrun;
    [discriminate|].
  cbn [query_metadata_loop] in Hrun. revert Hrun. run.
  destruct (files_list service query "drive" list_fields page_token)
    as [response|e].
  - destruct (nextPageToken response) as [t|].
    + intros Hrun. apply IH in Hrun as (Hfs & Hout & toks & Hev).
      cbn [fs events stdout] in *. split; [done|split; [done|]].
      exists (page_token :: toks). rewrite Hev, <- app_assoc. reflexivity.
    + intros [= <- <-]. cbn [fs events stdout]. split; [done|split; [done|]].
      by exists [page_token].
  - intros [= <- <-]. cbn [fs events stdout]. split; [done|split; [done|]].
    by exists [page_token].
Qed.
End Pagination.

(** C4: when the service serves the pages [pages] (any number of them, of
    any sizes) joined by continuation tokens, [query_metadata], given room
    for that many iterations, follows every token and returns exactly the
    items of all the pages, in order: as many items as the pages hold, each
    item of each page and nothing else, and without duplicates when the
    pages hold none.  [listdir_cloud_folder] returns the same listing for
    the query of its folder. *)
Theorem query_metadata_returns_every_item
    (service : Service) (query fields : string) (pages : list Response)
    (fuel : nat) (w : world) :
  serves service query fields None pages ->
  length pages <= fuel ->
  exists result w',
    query_metadata fuel service query fields w = Some (Ok result, w') /\
    result = concat (map page_items pages) /\
    length result = list_sum (map (fun page => length (page_items page)) pages) /\
    (forall file,
       In file result <-> exists page, In page pages /\ In file (page_items page)) /\
    (NoDup (concat (map page_items pages)) -> NoDup result) /\
    (forall cloud_folder_id,
       query = "'" +:+ cloud_folder_id +:+ "' in parents" ->
       fields = "id, name" ->
       listdir_cloud_folder fuel service cloud_folder_id w = Some (Ok result, w')).
Proof.
  intros Hserves Hfuel. eexists. eexists. split; [|split; [reflexivity|]].
  - unfold query_metadata.
    rewrite (query_metadata_loop_serves _ _ _ _ _ Hserves) by exact Hfuel.
    reflexivity.
  - split; [|split; [|split]].
    + rewrite length_concat, map_map. reflexivity.
    + intros file. rewrite in_concat. split.
      * intros (items & Hitems & Hfile).
        apply in_map_iff in Hitems as (page & <- & Hpage). by exists page.
      * intros (page & Hpage & Hfile). exists (page_items page).
        split; [by apply in_map|done].
    + done.
    + intros cloud_folder_id -> ->. unfold listdir_cloud_folder, query_metadata.
      rewrite (query_metadata_loop_serves _ _ _ _ _ Hserves) by exact Hfuel.
      reflexivity.
Qed.

Lemma stub_serves_two_pages :
  serves Stub.service "'F' in parents" "id, name" None Stub.pages.
Proof.
  eapply serves_more; [reflexivity|reflexivity|].
  apply serves_last; reflexivity.
Defined.

Lemma query_metadata_returns_every_item_witness :
  exists result w',
    query_metadata 2 Stub.service "'F' in parents" "id, name" Stub.empty_world =
      Some (Ok result, w') /\
    result = concat (map page_items Stub.pages) /\
    length result =
      list_sum (map (fun page => length (page_items page)) Stub.pages) /\
    (forall file,
       In file result <->
       exists page, In page Stub.pages /\ In file (page_items page)) /\
    (NoDup (concat (map page_items Stub.pages)) -> NoDup result) /\
    (forall cloud_folder_id,
       "'F' in parents" = "'" +:+ cloud_folder_id +:+ "' in parents" ->
       "id, name" = "id, name" ->
       listdir_cloud_folder 2 Stub.service cloud_folder_id Stub.empty_world =
         Some (Ok result, w')).
Proof.
  apply (query_metadata_returns_every_item Stub.service "'F' in parents"
           "id, name" Stub.pages 2 Stub.empty_world).
  - exact stub_serves_two_pages.
  - vm_compute. lia.
Defined.

(** C8: when the service serves pages of which the last is the first to
    carry no continuation token, the loop of [query_metadata] ends: it ends
    within any bound of at least as many iterations as there are pages, it
    has then issued exactly one request per page, each with the token of the
    page before, and it does not end within fewer iterations.  The page at
    which it ends is the only one without a token. *)
Theorem query_metadata_terminates_at_last_page
    (service : Service) (query fields : string) (pages : list Response)
    (w : world) :
  serves service query fields None pages ->
  (forall fuel,
     length pages <= fuel ->
     exists result w',
       query_metadata fuel service query fields w = Some (Ok result, w') /\
       events w' = events w ++ requests query fields None pages /\
       length (requests query fields None pages) = length pages) /\
  (forall fuel,
     fuel < length pages ->
     query_metadata fuel service query fields w = None) /\
  (forall i response,
     pages !! i = Some response ->
     (nextPageToken response = None <-> S i = length pages)).
Proof.
  intros Hserves. split; [|split].
  - intros fuel Hfuel. eexists. eexists. split; [|split].
    + unfold query_metadata.
      rewrite (query_metadata_loop_serves _ _ _ _ _ Hserves) by exact Hfuel.
      reflexivity.
    + reflexivity.
    + apply requests_length.
  - intros fuel Hfuel. unfold query_metadata.
    by apply (query_metadata_loop_short _ _ _ _ _ Hserves).
  - by apply (serves_last_token _ _ _ _ _ Hserves).
Qed.

Lemma query_metadata_terminates_at_last_page_witness :
  (exists result w',
     query_metadata 2 Stub.service "'F' in parents" "id, name" Stub.empty_world =
       Some (Ok result, w') /\
     events w' =
       events Stub.empty_world ++
       requests "'F' in parents" "id, name" None Stub.pages /\
     length (requests "'F' in parents" "id, name" None Stub.pages) =
       length Stub.pages) /\
  query_metadata 1 Stub.service "'F' in parents" "id, name" Stub.empty_world =
    None.
Proof.
  destruct (query_metadata_terminates_at_last_page Stub.service
              "'F' in parents" "id, name" Stub.pages Stub.empty_world
              stub_serves_two_pages) as (Hends & Hshort & _).
  split.
  - apply (Hends 2). vm_compute. lia.
  - apply (Hshort 1). vm_compute. lia.
Defined.

(** C7: [listdir_cloud_folder] forwards to [query_metadata] the query
    ['<folder id>' in parents] and the fields [id, name], and returns what
    [query_metadata] returns.  Every request it issues carries that query
    and asks for the fields [id] and [name] of the files only; the listing
    it returns is the items of the served pages as they were served, in
    order, with nothing removed, reordered or merged. *)
Theorem listdir_cloud_folder_forwards_query
    (fuel : nat) (service : Service) (cloud_folder_id : string) (w : world) :
  listdir_cloud_folder fuel service cloud_folder_id w =
    query_metadata fuel service
      ("'" +:+ cloud_folder_id +:+ "' in parents") "id, name" w /\
  (forall r w',
     listdir_cloud_folder fuel service cloud_folder_id w = Some (r, w') ->
     exists page_tokens,
       events w' =
         events w ++
         map (ListExecute ("'" +:+ cloud_folder_id +:+ "' in parents") "drive"
                "nextPageToken, files(id, name)") page_tokens) /\
  (forall pages,
     serves service ("'" +:+ cloud_folder_id +:+ "' in parents") "id, name"
       None pages ->
     length pages <= fuel ->
     exists w',
       listdir_cloud_folder fuel service cloud_folder_id w =
         Some (Ok (concat (map page_items pages)), w')).
Proof.
  split; [reflexivity|split].
  - intros r w' Hrun. unfold listdir_cloud_folder, query_metadata in Hrun.
    apply query_metadata_loop_requests in Hrun as (_ & _ & toks & Hev).
    by exists toks.
  - intros pages Hserves Hfuel. eexists.
    unfold listdir_cloud_folder, query_metadata.
    rewrite (query_metadata_loop_serves _ _ _ _ _ Hserves) by exact Hfuel.
    reflexivity.
Qed.

Lemma listdir_cloud_folder_forwards_query_witness :
  exists w',
    listdir_cloud_folder 2 Stub.service "F" Stub.empty_world =
      Some (Ok (concat (map page_items Stub.pages)), w').
Proof.
  destruct (listdir_cloud_folder_forwards_query 2 Stub.service "F"
              Stub.empty_world) as (_ & _ & Hpages).
  apply (Hpages Stub.pages).
  - exact stub_serves_two_pages.
  - vm_compute. lia.
Defined.

(** ** The credential lifecycle *)

Section Credentials.
Variables (config : Config) (libs : GoogleLibs).

(** C9: when the token file holds a credential that is valid (its token is
    present and it is not expired), [get_api_service] builds the service
    from that credential and does nothing else: the world it leaves is the
    world it found, so that no refresh call and no interactive authorization
    is made and the token file, like every other file, is left as it
    was. *)
Theorem get_api_service_valid_credentials_untouched
    (w : world) (content : string) (c : Credentials) :
  fs w !! TOKEN_FILE config = Some (File content) ->
  from_authorized_user_info libs content (SCOPES config) = Ok c ->
  valid c = true ->
  get_api_service config libs w =
    (build libs (API_NAME config) (API_VERSION config) (Some c), w).
Proof.
  intros Hfile Hload Hvalid. unfold get_api_service, from_authorized_user_file.
  run. decide_with ltac:(rewrite ?Hfile, ?Hload, ?Hvalid). reflexivity.
Qed.

(** C5: when the token file holds a credential that is expired and carries
    a refresh token, [get_api_service] makes exactly one refresh call and no
    interactive authorization; when the refresh yields a credential, that
    credential is written to the token file and the service is built from
    it.  (When the refresh raises, the exception is raised out of
    [get_api_service] and nothing is written.) *)
Theorem get_api_service_refreshes_expired_credentials
    (w : world) (content : string) (c : Credentials) :
  fs w !! TOKEN_FILE config = Some (File content) ->
  from_authorized_user_info libs content (SCOPES config) = Ok c ->
  expired c = true ->
  truthy (refresh_token c) = true ->
  get_api_service config libs w =
    match refresh libs c with
    | Ok c' =>
        (build libs (API_NAME config) (API_VERSION config) (Some c'),
         {| fs := <[TOKEN_FILE config := File (to_json libs c')]> (fs w);
            events := events w ++ [Refresh c];
            stdout := stdout w |})
    | Raise e =>
        (Raise e,
         {| fs := fs w; events := events w ++ [Refresh c]; stdout := stdout w |})
    end.
Proof.
  intros Hfile Hload Hexpired Hrefresh.
  assert (Hvalid : valid c = false).
  { unfold valid. rewrite Hexpired. by destruct (token c). }
  unfold get_api_service, from_authorized_user_file.
  run.
  decide_with ltac:(rewrite ?Hfile, ?Hload, ?Hvalid, ?Hexpired, ?Hrefresh).
  destruct (refresh libs c) as [c'|e]; [|reflexivity].
  decide_with ltac:(rewrite ?Hfile, ?lookup_insert_eq, ?insert_insert_eq).
  reflexivity.
Qed.

(** C6: when there is no token file, [get_api_service] makes no refresh
    call, reads the client secrets and runs the interactive authorization
    exactly once; the credential it yields is written to the token file
    before the service is built from it and returned.  (When the
    authorization raises, the exception is raised out of [get_api_service]
    and nothing is written.) *)
Theorem get_api_service_authorizes_without_token
    (w : world) (secrets : string) (flow : Flow) :
  fs w !! TOKEN_FILE config = None ->
  fs w !! CREDENTIALS_FILE config = Some (File secrets) ->
  from_client_config libs secrets (SCOPES config) = Ok flow ->
  get_api_service config libs w =
    match run_local_server libs flow with
    | Ok c =>
        (build libs (API_NAME config) (API_VERSION config) (Some c),
         {| fs := <[TOKEN_FILE config := File (to_json libs c)]> (fs w);
            events := events w ++ [RunLocalServer];
            stdout := stdout w |})
    | Raise e =>
        (Raise e,
         {| fs := fs w; events := events w ++ [RunLocalServer];
            stdout := stdout w |})
    end.
Proof.
  intros Htoken Hsecrets Hflow.
  unfold get_api_service, from_client_secrets_file.
  run. decide_with ltac:(rewrite ?Htoken, ?Hsecrets, ?Hflow).
  destruct (run_local_server libs flow) as [c|e]; [|reflexivity].
  decide_with ltac:(rewrite ?Htoken, ?lookup_insert_eq, ?insert_insert_eq).
  reflexivity.
Qed.
End Credentials.

Lemma get_api_service_valid_credentials_untouched_witness :
  get_api_service Stub.config Stub.libs (Stub.world_with_token "fresh") =
    (build Stub.libs "drive" "v3" (Some Stub.fresh_credentials),
     Stub.world_with_token "fresh").
Proof.
  apply (get_api_service_valid_credentials_untouched Stub.config Stub.libs
           (Stub.world_with_token "fresh") "fresh" Stub.fresh_credentials).
  - vm_compute. reflexivity.
  - vm_compute. reflexivity.
  - vm_compute. reflexivity.
Defined.

Lemma get_api_service_refreshes_expired_credentials_witness :
  get_api_service Stub.config Stub.libs (Stub.world_with_token "expired") =
    (Ok Stub.service,
     {| fs := <["token.json" := File "fresh"]>
                (fs (Stub.world_with_token "expired"));
        events := [Refresh Stub.expired_credentials];
        stdout := [] |}).
Proof.
  apply (get_api_service_refreshes_expired_credentials Stub.config Stub.libs
           (Stub.world_with_token "expired") "expired" Stub.expired_credentials).
  - vm_compute. reflexivity.
  - vm_compute. reflexivity.
  - vm_compute. reflexivity.
  - vm_compute. reflexivity.
Defined.

Lemma get_api_service_authorizes_without_token_witness :
  get_api_service Stub.config Stub.libs Stub.world_without_token =
    (Ok Stub.service,
     {| fs := <["token.json" := File "fresh"]> (fs Stub.world_without_token);
        events := [RunLocalServer];
        stdout := [] |}).
Proof.
  apply (get_api_service_authorizes_without_token Stub.config Stub.libs
           Stub.world_without_token "secrets"
           (InstalledAppFlow "secrets" (SCOPES Stub.config))).
  - vm_compute. reflexivity.
  - vm_compute. reflexivity.
  - vm_compute. reflexivity.
Defined.

(** ** More on downloads *)

Section Downloads.
Variables (service : Service).

(** X1: called on a path at which a regular file is, [download_metadata]
    replaces that file: the path ends as a regular file that holds exactly
    the data of the chunks received, whatever it held before, also when the
    media request fails, and the earlier content is then lost. *)
Theorem download_metadata_replaces_file
    (fileId save_file old : string) (w : world) :
  fs w !! save_file = Some (File old) ->
  download_metadata service fileId save_file w =
    (media_result (files_get_media service fileId),
     {| fs := <[save_file := File (media_written (files_get_media service fileId))]>
                (fs w);
        events := events w ++
                  replicate (media_calls (files_get_media service fileId))
                    (NextChunk fileId);
        stdout := stdout w |}).
Proof.
  intros Hfile. unfold download_metadata.
  unfold bind at 1. unfold open_w at 1. rewrite Hfile.
  erewrite next_chunks_run
    by (unfold set_fs; cbn [fs]; apply lookup_insert_eq).
  unfold set_fs. cbn [fs events stdout].
  rewrite insert_insert_eq. reflexivity.
Qed.

(** X2: when the destination is a directory, [download_file] raises
    [IsADirectoryError] after its first line of output: no network call is
    made and the filesystem is unchanged. *)
Theorem download_file_refuses_directory
    (cloud_file_id save_file : string) (w : world) :
  fs w !! save_file = Some Directory ->
  exists w',
    download_file service cloud_file_id save_file w =
      (Raise (IsADirectoryError save_file), w') /\
    fs w' = fs w /\ events w' = events w /\
    stdout w' =
      stdout w ++
      ["-- Downloading file with ID=" +:+ cloud_file_id +:+ " to " +:+ save_file].
Proof.
  intros Hdir. eexists. split; [by apply download_file_directory|].
  by cbn [fs events stdout].
Qed.

(** X3: when the save folder exists, the name is a plain file name,
    nothing is at the destination and the media request completes,
    [download_file] returns normally, the destination holds the data of all
    chunks in order, one [next_chunk] call was made per chunk, and the two
    lines of a successful download were printed. *)
Theorem download_file_fetches_whole_media
    (cloud_file_id save_folder basename : string) (w : world) :
  folder_exists (fs w) save_folder ->
  plain_name basename = true ->
  fs w !! join save_folder basename = None ->
  media_failure (files_get_media service cloud_file_id) = None ->
  download_file service cloud_file_id (join save_folder basename) w =
    (Ok tt,
     {| fs := <[join save_folder basename :=
                  File (media_written (files_get_media service cloud_file_id))]>
                (fs w);
        events := events w ++
                  replicate (media_calls (files_get_media service cloud_file_id))
                    (NextChunk cloud_file_id);
        stdout := stdout w ++
                  ["-- Downloading file with ID=" +:+ cloud_file_id +:+ " to " +:+
                   join save_folder basename;
                   "-- Download successful"] |}).
Proof.
  intros Hfolder Hplain Habsent Hcomplete.
  rewrite download_file_absent by exact Habsent.
  unfold media_result. rewrite Hcomplete, <- app_assoc. reflexivity.
Qed.

(** A download that returns normally leaves a regular file at its
    destination. *)
Lemma download_file_ok_isfile cloud_file_id save_file w w' :
  download_file service cloud_file_id save_file w = (Ok tt, w') ->
  isfile (fs w') save_file = true.
Proof.
  intros Hrun. destruct (fs w !! save_file) as [[c|]|] eqn:Hp.
  - rewrite download_file_present in Hrun by (unfold isfile; by rewrite Hp).
    injection Hrun as <-. cbn [fs]. unfold isfile. by rewrite Hp.
  - rewrite download_file_directory in Hrun by done. discriminate.
  - rewrite download_file_absent in Hrun by done.
    injection Hrun as _ <-. cbn [fs]. unfold isfile.
    by rewrite lookup_insert_eq.
Qed.

(** The only calls of a download are [next_chunk] calls for its file id. *)
Lemma download_file_events cloud_file_id save_file w r w' :
  download_file service cloud_file_id save_file w = (r, w') ->
  exists n, events w' = events w ++ replicate n (NextChunk cloud_file_id).
Proof.
  intros Hrun. destruct (fs w !! save_file) as [[c|]|] eqn:Hp.
  - rewrite download_file_present in Hrun by (unfold isfile; by rewrite Hp).
    injection Hrun as _ <-. exists 0. cbn. by rewrite app_nil_r.
  - rewrite download_file_directory in Hrun by done.
    injection Hrun as _ <-. exists 0. cbn. by rewrite app_nil_r.
  - rewrite download_file_absent in Hrun by done.
    injection Hrun as _ <-. by eexists.
Qed.

(** X4: an item without the key [name] makes [download_files] raise
    [KeyError] for [name], and an item with a name but without the key [id]
    makes it raise [KeyError] for [id]; in both cases nothing is printed for
    the item, no call is made, the world is as it was, and the items after
    it are not processed. *)
Theorem download_files_missing_key
    (save_folder : string) (file : gmap string string)
    (rest : list (gmap string string)) (w : world) :
  (file !! "name" = None ->
   download_files service (file :: rest) save_folder w =
     (Raise (KeyError "name"), w)) /\
  (forall basename,
     file !! "name" = Some basename -> file !! "id" = None ->
     download_files service (file :: rest) save_folder w =
       (Raise (KeyError "id"), w)).
Proof.
  split.
  - intros Hname. cbn [download_files].
    unfold bind, download_files_body, getitem. rewrite Hname. reflexivity.
  - intros basename Hname Hid. cbn [download_files].
    unfold bind, download_files_body, getitem. rewrite Hname, Hid.
    reflexivity.
Qed.
End Downloads.

Lemma download_metadata_replaces_file_witness :
  download_metadata Stub.service "a2" "dest/x.txt" Stub.world_with_x =
    (Raise (HttpError 404),
     {| fs := {[ "dest/x.txt" := File EmptyString ]};
        events := [NextChunk "a2"]; stdout := [] |}).
Proof.
  rewrite (download_metadata_replaces_file Stub.service "a2" "dest/x.txt"
             "old" Stub.world_with_x).
  - vm_compute. reflexivity.
  - vm_compute. reflexivity.
Defined.

Lemma download_file_refuses_directory_witness :
  exists w',
    download_file Stub.service "a1" "dest/x.txt" Scenario.world_with_directory =
      (Raise (IsADirectoryError "dest/x.txt"), w') /\
    fs w' = fs Scenario.world_with_directory /\
    events w' = events Scenario.world_with_directory /\
    stdout w' =
      stdout Scenario.world_with_directory ++
      ["-- Downloading file with ID=" +:+ "a1" +:+ " to " +:+ "dest/x.txt"].
Proof.
  apply (download_file_refuses_directory Stub.service "a1" "dest/x.txt"
           Scenario.world_with_directory).
  vm_compute. reflexivity.
Defined.

Lemma download_file_fetches_whole_media_witness :
  download_file Stub.service "a1" (join "dest" "x.txt")
    Scenario.world_with_folder =
    (Ok tt, Scenario.world_with_folder_after_x).
Proof.
  rewrite (download_file_fetches_whole_media Stub.service "a1" "dest" "x.txt"
             Scenario.world_with_folder).
  - vm_compute. reflexivity.
  - right. vm_compute. reflexivity.
  - vm_compute. reflexivity.
  - vm_compute. reflexivity.
  - vm_compute. reflexivity.
Defined.

Lemma download_files_missing_key_witness :
  download_files Stub.service
    [ {[ "id" := "a1" ]}; Stub.item "a2" "y.txt" ] "dest" Stub.empty_world =
    (Raise (KeyError "name"), Stub.empty_world) /\
  download_files Stub.service
    [ {[ "name" := "x.txt" ]}; Stub.item "a2" "y.txt" ] "dest" Stub.empty_world =
    (Raise (KeyError "id"), Stub.empty_world).
Proof.
  split.
  - apply (download_files_missing_key Stub.service "dest" {[ "id" := "a1" ]}
             [Stub.item "a2" "y.txt"] Stub.empty_world).
    vm_compute. reflexivity.
  - apply (proj2 (download_files_missing_key Stub.service "dest"
                    {[ "name" := "x.txt" ]} [Stub.item "a2" "y.txt"]
                    Stub.empty_world) "x.txt").
    + vm_compute. reflexivity.
    + vm_compute. reflexivity.
Defined.

(** ** The footprint of a bulk download *)

Section BulkDownload.
Variables (service : Service).

Lemma targets_dec save_folder file q :
  targets save_folder file q \/ ~ targets save_folder file q.
Proof.
  unfold targets. destruct (file !! "name") as [basename|].
  - destruct (decide (join save_folder basename = q)) as [Heq|Hne].
    + left. by exists basename.
    + right. intros (b & [= <-] & Hb). by apply Hne.
  - right. by intros (b & Hb & _).
Qed.

(** X5: whatever the outcome of [download_files], a path whose content
    differs afterwards was not a regular file before and is the destination
    of an item of the listing: existing files are never overwritten and
    nothing outside the destinations is touched. *)
Theorem download_files_changes_only_missing_targets
    (save_folder : string) (files : list (gmap string string))
    (w : world) (r : res unit) (w' : world) (q : string) :
  download_files service files save_folder w = (r, w') ->
  fs w' !! q <> fs w !! q ->
  isfile (fs w) q = false /\
  Exists (fun file => targets save_folder file q) files.
Proof.
  intros Hrun Hchanged. split.
  - destruct (isfile (fs w) q) eqn:Hq; [|reflexivity].
    exfalso. apply Hchanged.
    by eapply download_files_keeps_files.
  - revert w Hrun Hchanged.
    induction files as [|file rest IH]; intros w Hrun Hchanged.
    + injection Hrun as _ <-. done.
    + destruct (targets_dec save_folder file q) as [Hfile|Hfile];
        [by left|]. right.
      cbn [download_files] in Hrun. unfold bind in Hrun.
      destruct (download_files_body service save_folder file w)
        as [[[]|e] w1] eqn:Hbody.
      * apply (IH w1 Hrun).
        rewrite (download_files_body_frame _ _ _ _ _ _ q Hbody) by by left.
        exact Hchanged.
      * injection Hrun as _ <-. exfalso. apply Hchanged.
        eapply download_files_body_frame; eauto.
Qed.

(** X6: when [download_files] returns without an exception, every item of
    the listing has a name and an id and its destination is a regular
    file. *)
Theorem download_files_leaves_every_item_present
    (save_folder : string) (files : list (gmap string string))
    (w w' : world) :
  download_files service files save_folder w = (Ok tt, w') ->
  Forall (present_in (fs w') save_folder) files.
Proof.
  revert w. induction files as [|file rest IH]; intros w Hrun;
    [constructor|].
  cbn [download_files] in Hrun. unfold bind in Hrun.
  destruct (download_files_body service save_folder file w)
    as [[[]|e] w1] eqn:Hbody; [|discriminate].
  constructor; [|by eapply IH].
  unfold download_files_body, getitem in Hbody.
  destruct (file !! "name") as [basename|] eqn:Hname; [|discriminate].
  destruct (file !! "id") as [fileId|] eqn:Hid; [|discriminate].
  exists basename, fileId. split; [done|split; [done|]].
  apply download_file_ok_isfile in Hbody.
  unfold isfile in *.
  rewrite (download_files_keeps_files _ _ _ _ _ _ _ Hrun); [done|].
  unfold isfile. exact Hbody.
Qed.

(** Over items that are all present, the loop skips every item. *)
Lemma download_files_all_present save_folder files :
  forall w,
    Forall (present_in (fs w) save_folder) files ->
    exists w',
      download_files service files save_folder w = (Ok tt, w') /\
      fs w' = fs w /\ events w' = events w.
Proof.
  induction files as [|file rest IH]; intros w Hall.
  - by exists w.
  - inversion Hall as [|? ? (basename & fileId & Hname & Hid & Hfile) Hrest];
      subst.
    cbn [download_files]. unfold bind at 1.
    unfold download_files_body, getitem. rewrite Hname, Hid.
    unfold bind at 1. unfold ret at 1. unfold bind at 1. unfold ret at 1.
    rewrite (download_file_present _ _ _ _ Hfile).
    destruct (IH {| fs := fs w; events := events w;
                    stdout := (stdout w ++
                               ["-- Downloading file with ID=" +:+ fileId +:+
                                " to " +:+ join save_folder basename]) ++
                              ["-- Download failed: File already exists"] |})
      as (w' & Hrun & Hfs & Hev); [exact Hrest|].
    exists w'. by rewrite Hrun.
Qed.

(** X7: running [download_files] again over a listing that it has got
    through without an exception downloads nothing: the second run returns
    normally, makes no network call and leaves the filesystem as the first
    run left it. *)
Theorem download_files_rerun_downloads_nothing
    (save_folder : string) (files : list (gmap string string))
    (w w1 : world) :
  download_files service files save_folder w = (Ok tt, w1) ->
  exists w2,
    download_files service files save_folder w1 = (Ok tt, w2) /\
    fs w2 = fs w1 /\ events w2 = events w1.
Proof.
  intros Hrun. apply download_files_all_present.
  by eapply download_files_leaves_every_item_present.
Qed.

(** X10: whatever the outcome of [download_files], the calls it has added
    to the log are [next_chunk] calls for ids of items of the listing. *)
Theorem download_files_calls_only_listed_ids
    (save_folder : string) (files : list (gmap string string))
    (w : world) (r : res unit) (w' : world) :
  download_files service files save_folder w = (r, w') ->
  exists calls,
    events w' = events w ++ calls /\
    Forall (fun call =>
              exists file fileId,
                In file files /\ file !! "id" = Some fileId /\
                call = NextChunk fileId) calls.
Proof.
  revert w. induction files as [|file rest IH]; intros w Hrun.
  - injection Hrun as _ <-. exists []. by rewrite app_nil_r.
  - cbn [download_files] in Hrun. unfold bind in Hrun.
    assert (Hbody : forall r1 w1,
               download_files_body service save_folder file w = (r1, w1) ->
               exists calls,
                 events w1 = events w ++ calls /\
                 Forall (fun call =>
                           exists file0 fileId,
                             In file0 (file :: rest) /\
                             file0 !! "id" = Some fileId /\
                             call = NextChunk fileId) calls).
    { intros r1 w1. unfold download_files_body, getitem.
      destruct (file !! "name") as [basename|];
        [|intros [= _ <-]; exists []; by rewrite app_nil_r].
      destruct (file !! "id") as [fileId|] eqn:Hid;
        [|intros [= _ <-]; exists []; by rewrite app_nil_r].
      intros Hfile. apply download_file_events in Hfile as [n Hn].
      exists (replicate n (NextChunk fileId)). split; [exact Hn|].
      apply Forall_forall. intros call Hcall.
      exists file, fileId. split; [by left|split; [done|]].
      clear -Hcall. induction n as [|n IHn]; [by inversion Hcall|].
      cbn in Hcall. inversion Hcall; subst; [reflexivity|by apply IHn]. }
    destruct (download_files_body service save_folder file w)
      as [[[]|e] w1] eqn:Hw1.
    + destruct (Hbody _ _ eq_refl) as (calls1 & Hev1 & Hall1).
      destruct (IH w1 Hrun) as (calls2 & Hev2 & Hall2).
      exists (calls1 ++ calls2). split.
      * by rewrite Hev2, Hev1, app_assoc.
      * apply Forall_app. split; [exact Hall1|].
        eapply Forall_impl; [exact Hall2|].
        intros call (file0 & fileId & Hin & Hid & ->).
        exists file0, fileId. split; [by right|done].
    + injection Hrun as _ <-. by apply (Hbody _ _ eq_refl).
Qed.
End BulkDownload.

Lemma download_files_changes_only_missing_targets_witness :
  isfile (fs Stub.empty_world) "dest/x.txt" = false /\
  Exists (fun file => targets "dest" file "dest/x.txt") [Stub.item "a1" "x.txt"].
Proof.
  apply (download_files_changes_only_missing_targets Stub.service "dest"
           [Stub.item "a1" "x.txt"] Stub.empty_world (Ok tt)
           Stub.world_after_x "dest/x.txt").
  - vm_compute. reflexivity.
  - vm_compute. discriminate.
Defined.

Lemma download_files_leaves_every_item_present_witness :
  Forall (present_in (fs Stub.world_after_x) "dest") [Stub.item "a1" "x.txt"].
Proof.
  apply (download_files_leaves_every_item_present Stub.service "dest"
           [Stub.item "a1" "x.txt"] Stub.empty_world Stub.world_after_x).
  vm_compute. reflexivity.
Defined.

Lemma download_files_rerun_downloads_nothing_witness :
  exists w2,
    download_files Stub.service [Stub.item "a1" "x.txt"] "dest"
      Stub.world_after_x = (Ok tt, w2) /\
    fs w2 = fs Stub.world_after_x /\ events w2 = events Stub.world_after_x.
Proof.
  apply (download_files_rerun_downloads_nothing Stub.service "dest"
           [Stub.item "a1" "x.txt"] Stub.empty_world Stub.world_after_x).
  vm_compute. reflexivity.
Defined.

Lemma download_files_calls_only_listed_ids_witness :
  exists calls,
    events Stub.world_after_x = events Stub.empty_world ++ calls /\
    Forall (fun call =>
              exists file fileId,
                In file [Stub.item "a1" "x.txt"] /\ file !! "id" = Some fileId /\
                call = NextChunk fileId) calls.
Proof.
  apply (download_files_calls_only_listed_ids Stub.service "dest"
           [Stub.item "a1" "x.txt"] Stub.empty_world (Ok tt) Stub.world_after_x).
  vm_compute. reflexivity.
Defined.

(** ** Destination paths *)

Lemma endswith_sep_app_sep (a : string) : endswith_sep (a +:+ "/") = true.
Proof.
  induction a as [|c a IH]; [reflexivity|].
  change (String c a +:+ "/") with (String c (a +:+ "/")).
  cbn [endswith_sep]. rewrite IH. by destruct a.
Qed.

Lemma join_trailing_separator (a b : string) :
  a <> EmptyString -> endswith_sep a = false ->
  join (a +:+ "/") b = join a b.
Proof.
  intros Ha Hend. unfold join. destruct (startswith_sep b); [reflexivity|].
  rewrite endswith_sep_app_sep, Hend, orb_true_r.
  destruct a as [|c a]; [done|]. cbn [truthy negb orb].
  apply string_app_assoc.
Qed.

(** X8: a save folder given with one trailing [/] yields the same
    downloads as the folder given without it. *)
Theorem download_files_ignores_trailing_separator
    (service : Service) (files : list (gmap string string))
    (save_folder : string) (w : world) :
  save_folder <> EmptyString -> endswith_sep save_folder = false ->
  download_files service files (save_folder +:+ "/") w =
    download_files service files save_folder w.
Proof.
  intros Hfolder Hend. revert w.
  induction files as [|file rest IH]; intros w; [reflexivity|].
  cbn [download_files]. unfold bind.
  assert (Hbody : download_files_body service (save_folder +:+ "/") file w =
                  download_files_body service save_folder file w).
  { unfold download_files_body, bind.
    destruct (getitem file "name" w) as [[basename|e] w1]; [|reflexivity].
    destruct (getitem file "id" w1) as [[fileId|e] w2]; [|reflexivity].
    by rewrite join_trailing_separator. }
  rewrite Hbody.
  destruct (download_files_body service save_folder file w) as [[[]|e] w1];
    [apply IH|reflexivity].
Qed.

Lemma download_files_ignores_trailing_separator_witness :
  download_files Stub.service [Stub.item "a1" "x.txt"] ("dest" +:+ "/")
    Stub.empty_world =
  download_files Stub.service [Stub.item "a1" "x.txt"] "dest" Stub.empty_world.
Proof.
  apply (download_files_ignores_trailing_separator Stub.service
           [Stub.item "a1" "x.txt"] "dest" Stub.empty_world).
  - discriminate.
  - vm_compute. reflexivity.
Defined.

(** An item whose name begins with [/] is saved at that name. *)
Lemma download_files_body_absolute_name
    (service : Service) (save_folder : string) (file : gmap string string)
    (basename fileId : string) (w : world) :
  file !! "name" = Some basename -> file !! "id" = Some fileId ->
  startswith_sep basename = true ->
  download_files_body service save_folder file w =
    download_file service fileId basename w.
Proof.
  intros Hname Hid Habs. unfold download_files_body, getitem.
  rewrite Hname, Hid. unfold bind, ret, join. by rewrite Habs.
Qed.

(** X9: items whose names begin with [/] are saved at those names, as
    absolute paths: for a listing of such items the save folder plays no
    part, and [download_files] does the same for any two save folders. *)
Theorem download_files_absolute_names_leave_folder
    (service : Service) (files : list (gmap string string))
    (save_folder other_folder : string) (w : world) :
  Forall (fun file =>
            forall basename,
              file !! "name" = Some basename -> startswith_sep basename = true)
    files ->
  download_files service files save_folder w =
    download_files service files other_folder w.
Proof.
  intros Habs. revert w.
  induction files as [|file rest IH]; intros w; [reflexivity|].
  apply Forall_cons in Habs as [Hfile Hrest].
  cbn [download_files]. unfold bind.
  assert (Hbody : download_files_body service save_folder file w =
                  download_files_body service other_folder file w).
  { destruct (file !! "name") as [basename|] eqn:Hname;
      [|unfold download_files_body, getitem, bind; by rewrite Hname].
    destruct (file !! "id") as [fileId|] eqn:Hid;
      [|unfold download_files_body, getitem, bind; by rewrite Hname, Hid].
    rewrite !(download_files_body_absolute_name _ _ _ basename fileId)
      by auto.
    reflexivity. }
  rewrite Hbody.
  destruct (download_files_body service other_folder file w) as [[[]|e] w1];
    [by apply IH|reflexivity].
Qed.

Lemma download_files_absolute_names_leave_folder_witness :
  download_files Stub.service [Stub.item "a1" "/tmp/x.txt"] "dest"
    Stub.empty_world =
  download_files Stub.service [Stub.item "a1" "/tmp/x.txt"] "elsewhere"
    Stub.empty_world.
Proof.
  apply (download_files_absolute_names_leave_folder Stub.service
           [Stub.item "a1" "/tmp/x.txt"] "dest" "elsewhere" Stub.empty_world).
  constructor; [|constructor].
  intros basename Hname. vm_compute in Hname.
  injection Hname as <-. reflexivity.
Defined.

(** ** More on pagination *)

Section MorePagination.
Variables (service : Service) (query fields : string).

Local Abbreviation list_fields := ("nextPageToken, files(" +:+ fields +:+ ")").

Lemma query_metadata_loop_fails page_token pages e :
  fails_after service query fields page_token pages e ->
  forall fuel files_acc w,
    length pages < fuel ->
    query_metadata_loop fuel service query fields files_acc page_token w =
      Some (Raise e,
            {| fs := fs w;
               events := events w ++
                         requests query fields page_token pages ++
                         [ListExecute query "drive" list_fields
                            (token_after page_token pages)];
               stdout := stdout w |}).
Proof.
  induction 1 as [page_token e Hresp
                 |page_token response t rest e Hresp Hnext Hrest IH];
    intros fuel files_acc w Hfuel;
    (destruct fuel as [|fuel]; [cbn in Hfuel; lia|]);
    cbn [query_metadata_loop]; run; rewrite Hresp.
  - reflexivity.
  - cbn [requests token_after]. rewrite Hnext.
    rewrite IH by (cbn in Hfuel; lia).
    cbn [fs events stdout]. rewrite <- !app_assoc. reflexivity.
Qed.

(** X11: when a request for a later page raises, [query_metadata] raises
    that exception, after one request per page served and the failing one:
    the items of the pages already received are not returned. *)
Theorem query_metadata_error_discards_pages
    (pages : list Response) (e : exn) (fuel : nat) (w : world) :
  fails_after service query fields None pages e ->
  length pages < fuel ->
  query_metadata fuel service query fields w =
    Some (Raise e,
          {| fs := fs w;
             events := events w ++
                       requests query fields None pages ++
                       [ListExecute query "drive" list_fields
                          (token_after None pages)];
             stdout := stdout w |}).
Proof.
  intros Hfails Hfuel. unfold query_metadata.
  by apply query_metadata_loop_fails.
Qed.

(** X12: when every response of the service carries a continuation token,
    the loop of [query_metadata] does not end: no bound on the iterations is
    enough for it to return. *)
Theorem query_metadata_endless_tokens (w : world) :
  (forall page_token,
     exists response t,
       files_list service query "drive" list_fields page_token = Ok response /\
       nextPageToken response = Some t) ->
  forall fuel, query_metadata fuel service query fields w = None.
Proof.
  intros Hmore fuel. unfold query_metadata.
  generalize (@nil (gmap string string)) (@None string) w.
  induction fuel as [|fuel IH]; intros files_acc page_token w0; [reflexivity|].
  cbn [query_metadata_loop]. run.
  destruct (Hmore page_token) as (response & t & -> & ->). apply IH.
Qed.

(** X14: whatever the service answers, [query_metadata] neither touches
    the filesystem nor prints, and its calls are list requests for its own
    query, in the space [drive], for the page token and the requested fields
    of the files. *)
Theorem query_metadata_only_lists
    (fuel : nat) (w : world) (r : res (list (gmap string string)))
    (w' : world) :
  query_metadata fuel service query fields w = Some (r, w') ->
  fs w' = fs w /\ stdout w' = stdout w /\
  exists page_tokens,
    events w' =
      events w ++ map (ListExecute query "drive" list_fields) page_tokens.
Proof.
  unfold query_metadata. apply query_metadata_loop_requests.
Qed.
End MorePagination.

Lemma flaky_service_fails_after_first_page :
  fails_after Scenario.flaky_service "'F' in parents" "id, name" None
    [Scenario.flaky_first_page] (HttpError 500).
Proof.
  eapply fails_later; [reflexivity|reflexivity|].
  apply fails_now. reflexivity.
Defined.

Lemma query_metadata_error_discards_pages_witness :
  query_metadata 2 Scenario.flaky_service "'F' in parents" "id, name"
    Stub.empty_world =
    Some (Raise (HttpError 500),
          {| fs := fs Stub.empty_world;
             events := events Stub.empty_world ++
                       requests "'F' in parents" "id, name" None
                         [Scenario.flaky_first_page] ++
                       [ListExecute "'F' in parents" "drive"
                          ("nextPageToken, files(" +:+ "id, name" +:+ ")")
                          (token_after None [Scenario.flaky_first_page])];
             stdout := stdout Stub.empty_world |}).
Proof.
  apply (query_metadata_error_discards_pages Scenario.flaky_service
           "'F' in parents" "id, name" [Scenario.flaky_first_page]
           (HttpError 500) 2 Stub.empty_world).
  - exact flaky_service_fails_after_first_page.
  - vm_compute. lia.
Defined.

Lemma query_metadata_endless_tokens_witness :
  query_metadata 1000 Scenario.endless_service "'F' in parents" "id, name"
    Stub.empty_world = None.
Proof.
  apply (query_metadata_endless_tokens Scenario.endless_service
           "'F' in parents" "id, name" Stub.empty_world).
  intros page_token. eexists. eexists. split; reflexivity.
Defined.

Lemma query_metadata_only_lists_witness :
  fs Stub.empty_world = fs Stub.empty_world /\
  stdout Stub.empty_world = stdout Stub.empty_world /\
  exists page_tokens,
    [ListExecute "'F' in parents" "drive" "nextPageToken, files(id, name)" None;
     ListExecute "'F' in parents" "drive" "nextPageToken, files(id, name)"
       (Some "t1")] =
      events Stub.empty_world ++
      map (ListExecute "'F' in parents" "drive"
             ("nextPageToken, files(" +:+ "id, name" +:+ ")")) page_tokens.
Proof.
  apply (query_metadata_only_lists Scenario.flaky_service "'F' in parents"
           "id, name" 2 Stub.empty_world (Raise (HttpError 500))
           {| fs := fs Stub.empty_world;
              events := [ListExecute "'F' in parents" "drive"
                           "nextPageToken, files(id, name)" None;
                         ListExecute "'F' in parents" "drive"
                           "nextPageToken, files(id, name)" (Some "t1")];
              stdout := stdout Stub.empty_world |}).
  vm_compute. reflexivity.
Defined.

(** ** More on the credential lifecycle *)

Section MoreCredentials.
Variables (config : Config) (libs : GoogleLibs).

(** X15: a token file that cannot be loaded is not replaced: when the
    token path is a directory, or when the content of the token file is
    rejected, [get_api_service] raises the error and leaves the world as it
    was; it does not fall back on the interactive authorization. *)
Theorem get_api_service_unloadable_token_raises (w : world) :
  (fs w !! TOKEN_FILE config = Some Directory ->
   get_api_service config libs w =
     (Raise (IsADirectoryError (TOKEN_FILE config)), w)) /\
  (forall content e,
     fs w !! TOKEN_FILE config = Some (File content) ->
     from_authorized_user_info libs content (SCOPES config) = Raise e ->
     get_api_service config libs w = (Raise e, w)).
Proof.
  split.
  - intros Hdir. unfold get_api_service, from_authorized_user_file. run.
    decide_with ltac:(rewrite ?Hdir). reflexivity.
  - intros content e Hfile Hload.
    unfold get_api_service, from_authorized_user_file. run.
    decide_with ltac:(rewrite ?Hfile, ?Hload). reflexivity.
Qed.

(** X16: a loaded credential that is not valid and is either not expired
    or without a non-empty refresh token is never refreshed:
    [get_api_service] runs the interactive authorization once and, when it
    yields a credential, overwrites the token file with it. *)
Theorem get_api_service_unrefreshable_credentials_reauthorize
    (w : world) (content secrets : string) (c : Credentials) (flow : Flow) :
  fs w !! TOKEN_FILE config = Some (File content) ->
  from_authorized_user_info libs content (SCOPES config) = Ok c ->
  valid c = false ->
  expired c && truthy (refresh_token c) = false ->
  fs w !! CREDENTIALS_FILE config = Some (File secrets) ->
  from_client_config libs secrets (SCOPES config) = Ok flow ->
  get_api_service config libs w =
    match run_local_server libs flow with
    | Ok c' =>
        (build libs (API_NAME config) (API_VERSION config) (Some c'),
         {| fs := <[TOKEN_FILE config := File (to_json libs c')]> (fs w);
            events := events w ++ [RunLocalServer];
            stdout := stdout w |})
    | Raise e =>
        (Raise e,
         {| fs := fs w; events := events w ++ [RunLocalServer];
            stdout := stdout w |})
    end.
Proof.
  intros Hfile Hload Hvalid Hrefresh Hsecrets Hflow.
  unfold get_api_service, from_authorized_user_file, from_client_secrets_file.
  run.
  decide_with ltac:(rewrite ?Hfile, ?Hload, ?Hvalid, ?Hrefresh, ?Hsecrets,
                      ?Hflow).
  destruct (run_local_server libs flow) as [c'|e]; [|reflexivity].
  decide_with ltac:(rewrite ?Hfile, ?lookup_insert_eq, ?insert_insert_eq).
  reflexivity.
Qed.

(** X17: without a token file and without a client secrets file,
    [get_api_service] raises [FileNotFoundError] for the secrets file before
    the interactive authorization is run, and leaves the world as it was. *)
Theorem get_api_service_missing_secrets_raises (w : world) :
  fs w !! TOKEN_FILE config = None ->
  fs w !! CREDENTIALS_FILE config = None ->
  get_api_service config libs w =
    (Raise (FileNotFoundError (CREDENTIALS_FILE config)), w).
Proof.
  intros Htoken Hsecrets.
  unfold get_api_service, from_client_secrets_file. run.
  decide_with ltac:(rewrite ?Htoken, ?Hsecrets). reflexivity.
Qed.

(** X18: whatever the files and the libraries, one call of
    [get_api_service] changes no path other than the token file, and makes
    at most one call: none (and then it changes no file at all), one
    refresh, or one interactive authorization, never both. *)
Theorem get_api_service_footprint
    (w : world) (r : res Service) (w' : world) :
  get_api_service config libs w = (r, w') ->
  (forall q, q <> TOKEN_FILE config -> fs w' !! q = fs w !! q) /\
  ((events w' = events w /\ fs w' = fs w) \/
   (exists c, events w' = events w ++ [Refresh c]) \/
   events w' = events w ++ [RunLocalServer]).
Proof.
  unfold get_api_service, from_authorized_user_file, from_client_secrets_file.
  run.
  repeat first
    [ progress (rewrite ?lookup_insert_eq)
    | progress cbn beta iota zeta delta [fs events stdout negb andb]
    | match goal with
      | |- context [match ?x with _ => _ end] =>
          lazymatch x with
          | context [match _ with _ => _ end] => fail
          | _ => destruct x eqn:?
          end
      end ];
    intros [= <- <-]; cbn [fs events stdout];
    (split;
     [intros q Hq; rewrite ?lookup_insert_ne by done; reflexivity|]);
    first [ left; split; reflexivity
          | right; left; eexists; reflexivity
          | right; right; reflexivity ].
Qed.

(** X19: a credential obtained interactively is reused: when there was no
    token file, the authorization yielded a valid credential, and the token
    file written from it loads back as that credential, a second call of
    [get_api_service] builds the service from the same credential and
    leaves the world as the first call left it, making no further call. *)
Theorem get_api_service_reuses_stored_credentials
    (w : world) (secrets : string) (flow : Flow) (c : Credentials) :
  fs w !! TOKEN_FILE config = None ->
  fs w !! CREDENTIALS_FILE config = Some (File secrets) ->
  from_client_config libs secrets (SCOPES config) = Ok flow ->
  run_local_server libs flow = Ok c ->
  valid c = true ->
  from_authorized_user_info libs (to_json libs c) (SCOPES config) = Ok c ->
  exists w1,
    get_api_service config libs w =
      (build libs (API_NAME config) (API_VERSION config) (Some c), w1) /\
    events w1 = events w ++ [RunLocalServer] /\
    get_api_service config libs w1 =
      (build libs (API_NAME config) (API_VERSION config) (Some c), w1).
Proof.
  intros Htoken Hsecrets Hflow Hauth Hvalid Hload.
  exists {| fs := <[TOKEN_FILE config := File (to_json libs c)]> (fs w);
            events := events w ++ [RunLocalServer];
            stdout := stdout w |}.
  split; [|split].
  - unfold get_api_service, from_client_secrets_file. run.
    decide_with ltac:(rewrite ?Htoken, ?Hsecrets, ?Hflow, ?Hauth,
                        ?lookup_insert_eq, ?insert_insert_eq).
    reflexivity.
  - reflexivity.
  - unfold get_api_service, from_authorized_user_file. run.
    decide_with ltac:(rewrite ?lookup_insert_eq, ?Hload, ?Hvalid).
    reflexivity.
Qed.
End MoreCredentials.

Lemma get_api_service_unloadable_token_raises_witness :
  get_api_service Stub.config Stub.libs Scenario.world_with_token_directory =
    (Raise (IsADirectoryError "token.json"),
     Scenario.world_with_token_directory) /\
  get_api_service Stub.config Stub.libs (Stub.world_with_token "garbage") =
    (Raise (Exception "malformed token file"), Stub.world_with_token "garbage").
Proof.
  split.
  - apply (get_api_service_unloadable_token_raises Stub.config Stub.libs
             Scenario.world_with_token_directory).
    vm_compute. reflexivity.
  - apply (proj2 (get_api_service_unloadable_token_raises Stub.config
                    Stub.libs (Stub.world_with_token "garbage")) "garbage").
    + vm_compute. reflexivity.
    + vm_compute. reflexivity.
Defined.

Lemma get_api_service_unrefreshable_credentials_reauthorize_witness :
  get_api_service Stub.config Scenario.blank_libs
    (Stub.world_with_token "blank") =
    (Ok Stub.service,
     {| fs := <["token.json" := File "fresh"]>
                (fs (Stub.world_with_token "blank"));
        events := [RunLocalServer];
        stdout := [] |}).
Proof.
  apply (get_api_service_unrefreshable_credentials_reauthorize Stub.config
           Scenario.blank_libs (Stub.world_with_token "blank") "blank"
           "secrets" Scenario.blank_credentials
           (InstalledAppFlow "secrets" (SCOPES Stub.config))).
  - vm_compute. reflexivity.
  - vm_compute. reflexivity.
  - vm_compute. reflexivity.
  - vm_compute. reflexivity.
  - vm_compute. reflexivity.
  - vm_compute. reflexivity.
Defined.

Lemma get_api_service_missing_secrets_raises_witness :
  get_api_service Stub.config Stub.libs Stub.empty_world =
    (Raise (FileNotFoundError "credentials.json"), Stub.empty_world).
Proof.
  apply (get_api_service_missing_secrets_raises Stub.config Stub.libs
           Stub.empty_world).
  - vm_compute. reflexivity.
  - vm_compute. reflexivity.
Defined.

Lemma get_api_service_footprint_witness :
  (forall q,
     q <> TOKEN_FILE Stub.config ->
     fs (Stub.world_with_token "fresh") !! q =
     fs (Stub.world_with_token "expired") !! q) /\
  ((events {| fs := fs (Stub.world_with_token "fresh");
              events := [Refresh Stub.expired_credentials];
              stdout := [] |} =
    events (Stub.world_with_token "expired") /\
    fs (Stub.world_with_token "fresh") = fs (Stub.world_with_token "expired")) \/
   (exists c,
      [Refresh Stub.expired_credentials] =
      events (Stub.world_with_token "expired") ++ [Refresh c]) \/
   [Refresh Stub.expired_credentials] =
   events (Stub.world_with_token "expired") ++ [RunLocalServer]).
Proof.
  apply (get_api_service_footprint Stub.config Stub.libs
           (Stub.world_with_token "expired") (Ok Stub.service)
           {| fs := fs (Stub.world_with_token "fresh");
              events := [Refresh Stub.expired_credentials];
              stdout := [] |}).
  vm_compute. reflexivity.
Defined.

Lemma get_api_service_reuses_stored_credentials_witness :
  exists w1,
    get_api_service Stub.config Stub.libs Stub.world_without_token =
      (build Stub.libs (API_NAME Stub.config) (API_VERSION Stub.config)
         (Some Stub.fresh_credentials), w1) /\
    events w1 = events Stub.world_without_token ++ [RunLocalServer] /\
    get_api_service Stub.config Stub.libs w1 =
      (build Stub.libs (API_NAME Stub.config) (API_VERSION Stub.config)
         (Some Stub.fresh_credentials), w1).
Proof.
  apply (get_api_service_reuses_stored_credentials Stub.config Stub.libs
           Stub.world_without_token "secrets"
           (InstalledAppFlow "secrets" (SCOPES Stub.config))
           Stub.fresh_credentials).
  - vm_compute. reflexivity.
  - vm_compute. reflexivity.
  - vm_compute. reflexivity.
  - vm_compute. reflexivity.
  - vm_compute. reflexivity.
  - vm_compute. reflexivity.
Defined.

(** ** A bulk download that succeeds *)

Section BulkSuccess.
Variables (service : Service) (save_folder : string).

(** X20: when the save folder exists, every item of the listing has an id
    and a plain file name, the names are pairwise different, nothing is at
    the destinations and every media request completes, [download_files]
    returns without an exception and the destination of every item holds
    the whole data of that item. *)
Theorem download_files_fetches_every_item
    (files : list (gmap string string)) (w : world) :
  folder_exists (fs w) save_folder ->
  Forall (fetchable service (fs w) save_folder) files ->
  NoDup (omap (fun file : gmap string string => file !! "name") files) ->
  exists w',
    download_files service files save_folder w = (Ok tt, w') /\
    Forall (fetched service (fs w') save_folder) files.
Proof.
  intros _. revert w.
  induction files as [|file rest IH]; intros w Hall Hdistinct.
  - exists w. by split.
  - apply Forall_cons in Hall
      as [(basename & fileId & Hname & Hid & Hplain & Habsent & Hcomplete) Hrest].
    cbn [omap list_omap] in Hdistinct. rewrite Hname in Hdistinct.
    apply NoDup_cons in Hdistinct as [Hfresh Hdistinct].
    assert (Hbody : download_files_body service save_folder file w =
                    download_file service fileId (join save_folder basename) w).
    { unfold download_files_body, getitem. rewrite Hname, Hid. reflexivity. }
    rewrite (download_file_absent _ _ _ _ Habsent) in Hbody.
    unfold media_result in Hbody. rewrite Hcomplete in Hbody.
    match type of Hbody with _ = (_, ?w0) => set (w1 := w0) in * end.
    destruct (IH w1) as (w' & Hrun & Hfetched).
    + apply Forall_forall. intros file' Hin.
      apply (proj1 (Forall_forall _ _) Hrest) in Hin
        as Hfile'.
      destruct Hfile' as (b' & i' & Hn' & Hi' & Hp' & Ha' & Hc').
      exists b', i'.
      split; [done|split; [done|split; [done|split; [|done]]]].
      subst w1. cbn [fs]. rewrite lookup_insert_ne; [done|].
      intros Heq. apply Hfresh. apply list_elem_of_omap.
      exists file'. split; [done|]. rewrite Hn'. f_equal. symmetry.
      apply (join_relative_inj save_folder);
        auto using plain_name_relative.
    + exact Hdistinct.
    + exists w'. split.
      * cbn [download_files]. unfold bind. by rewrite Hbody.
      * constructor; [|exact Hfetched].
        exists basename, fileId. split; [done|split; [done|]].
        rewrite (download_files_keeps_files _ _ _ _ _ _ _ Hrun);
          subst w1; cbn [fs]; unfold isfile; by rewrite lookup_insert_eq.
Qed.
End BulkSuccess.

Lemma download_files_fetches_every_item_witness :
  exists w',
    download_files Stub.service
      [Stub.item "a1" "x.txt"; Stub.item "a3" "z.txt"] "dest"
      Scenario.world_with_folder = (Ok tt, w') /\
    Forall (fetched Stub.service (fs w') "dest")
      [Stub.item "a1" "x.txt"; Stub.item "a3" "z.txt"].
Proof.
  apply (download_files_fetches_every_item Stub.service "dest"
           [Stub.item "a1" "x.txt"; Stub.item "a3" "z.txt"]
           Scenario.world_with_folder).
  - right. vm_compute. reflexivity.
  - constructor; [|constructor; [|constructor]].
    + exists "x.txt", "a1". vm_compute. by repeat split.
    + exists "z.txt", "a3". vm_compute. by repeat split.
  - apply (bool_decide_unpack _). vm_compute. exact I.
Defined.
